(** * linkfinder.py: path extraction and URL rebuilding

    A shallow embedding of [src/linkfinder.py]: [rebuild_paths],
    [extract_base_url_from_path], [is_mime_type], [extract_paths] and the
    loop of [write_path_rebuild_file], with the properties of the
    specification proved about them.

    Python [str] values are modelled as [string] over Stdlib's 8-bit
    [ascii], read as the code points U+0000 to U+00FF (text outside this
    range is not modelled); indices and lengths are [Z], so that the [-1]
    of [rfind] is the value the code tests.  The [while True] loop of
    [rebuild_paths] is a function defined by recursion on the length of
    [current_url], which every iteration shortens.  The patterns the
    program writes itself are syntax trees matched by derivatives; the
    [re] engine that runs [PATH_REGEX] or a custom pattern, and
    [jsbeautifier], are taken through an interface.  Exceptions are values
    of a [result] type; files and the terminal are left out, and
    [write_path_rebuild_file] returns the lines it writes. *)

From Stdlib Require Import ZArith Ascii.
From stdpp Require Import gmap strings list.
From Equations Require Import Equations.

Local Open Scope Z_scope.

(** ** Python string primitives used by the program *)

Module Py.

(** [len(s)] *)
Definition len (s : string) : Z := Z.of_nat (String.length s).

(** [s.startswith(p)] *)
Fixpoint startswith (s p : string) : bool :=
  match p, s with
  | EmptyString, _ => true
  | String _ _, EmptyString => false
  | String b p', String a s' => Ascii.eqb a b && startswith s' p'
  end.

(** [s.endswith(c)], for a one-character [c] (the only use in the code) *)
Fixpoint endswith (s : string) (c : ascii) : bool :=
  match s with
  | EmptyString => false
  | String a EmptyString => Ascii.eqb a c
  | String _ s' => endswith s' c
  end.

(** [s.rstrip(c)]: every trailing [c] is removed *)
Fixpoint rstrip (s : string) (c : ascii) : string :=
  match s with
  | EmptyString => EmptyString
  | String a s' =>
      match rstrip s' c with
      | EmptyString => if Ascii.eqb a c then EmptyString else String a EmptyString
      | r => String a r
      end
  end.

(** [s.rfind(c)]: the highest index of [c] in [s], or [-1] *)
Fixpoint rfind (s : string) (c : ascii) : Z :=
  match s with
  | EmptyString => -1
  | String a s' =>
      let k := rfind s' c in
      if 0 <=? k then k + 1 else if Ascii.eqb a c then 0 else -1
  end.

(** [c in s] *)
Fixpoint contains (s : string) (c : ascii) : bool :=
  match s with
  | EmptyString => false
  | String a s' => Ascii.eqb a c || contains s' c
  end.

Fixpoint drop (n : nat) (s : string) : string :=
  match n, s with
  | O, _ => s
  | S _, EmptyString => EmptyString
  | S n', String _ s' => drop n' s'
  end.

Fixpoint take (n : nat) (s : string) : string :=
  match n, s with
  | O, _ => EmptyString
  | S _, EmptyString => EmptyString
  | S n', String a s' => String a (take n' s')
  end.

(** [s[k:]] and [s[:k]] for [0 <= k], the only slices the code takes *)
Definition slice_from (s : string) (k : Z) : string := drop (Z.to_nat k) s.
Definition slice_to (s : string) (k : Z) : string := take (Z.to_nat k) s.

(** [s.replace(old, new)] for a one-character [old] *)
Fixpoint replace (s : string) (old : ascii) (new : string) : string :=
  match s with
  | EmptyString => EmptyString
  | String a s' =>
      if Ascii.eqb a old then new +:+ replace s' old new
      else String a (replace s' old new)
  end.

(** [s.split(c)]: never empty, [''.split(c) == ['']] *)
Fixpoint split (s : string) (c : ascii) : list string :=
  match s with
  | EmptyString => [EmptyString]
  | String a s' =>
      if Ascii.eqb a c then EmptyString :: split s' c
      else match split s' c with
           | h :: t => String a h :: t
           | [] => [String a EmptyString]
           end
  end.

(** [sep.join(parts)] *)
Fixpoint join (sep : string) (parts : list string) : string :=
  match parts with
  | [] => EmptyString
  | [p] => p
  | p :: ps => p +:+ sep +:+ join sep ps
  end.

(** [s.rsplit(c, 1)[0]]: the text before the last [c], or all of [s] *)
Definition rsplit1_head (s : string) (c : ascii) : string :=
  let k := rfind s c in
  if k =? -1 then s else slice_to s k.

End Py.

(** ** [rebuild_paths] *)

(** The cleaning of the relative path at the top of [rebuild_paths]. *)
Definition clean_relative (relative_path : string) : string :=
  if Py.startswith relative_path "./" then Py.slice_from relative_path 2
  else if Py.startswith relative_path "." then Py.slice_from relative_path 1
  else relative_path.

(** The first statement of the loop body: the URL that is appended. *)
Definition full_url (current_url clean_path : string) : string :=
  if Py.endswith current_url "/" then current_url +:+ clean_path
  else current_url +:+ "/" +:+ clean_path.

(** The rest of the loop body, after [urls.append(full_url)]: [None] is
    [break], [Some next_url] is the assignment [current_url = next_url]. *)
Definition climb (base_url current_url : string) : option string :=
  if String.eqb (Py.rstrip current_url "/") (Py.rstrip base_url "/") then None
  else
    let current_url := Py.rstrip current_url "/" in
    let last_slash := Py.rfind current_url "/" in
    if last_slash =? -1 then None
    else
      let base_without_slash := Py.rstrip base_url "/" in
      let next_url := Py.slice_to current_url (last_slash + 1) in
      if Py.len (Py.rstrip next_url "/") <? Py.len base_without_slash then None
      else Some next_url.

Section StringFacts.

Lemma rstrip_length s c : (String.length (Py.rstrip s c) <= String.length s)%nat.
Proof.
  induction s as [|a s IH]; simpl; [lia|].
  destruct (Py.rstrip s c) eqn:E.
  - destruct (Ascii.eqb a c); simpl in *; lia.
  - simpl in *. lia.
Qed.

Lemma rstrip_not_endswith s c : Py.endswith (Py.rstrip s c) c = false.
Proof.
  induction s as [|a s IH]; simpl; [done|].
  destruct (Py.rstrip s c) eqn:E.
  - destruct (Ascii.eqb a c) eqn:Ea; simpl; [done|]. by rewrite Ea.
  - exact IH.
Qed.

Lemma rfind_upper s c : Py.rfind s c < Py.len s.
Proof.
  unfold Py.len. induction s as [|a s IH]; simpl String.length; simpl Py.rfind; [lia|].
  destruct (0 <=? Py.rfind s c); [lia|]. destruct (Ascii.eqb a c); lia.
Qed.

Lemma rfind_lower s c : -1 <= Py.rfind s c.
Proof.
  induction s as [|a s IH]; simpl; [lia|].
  destruct (0 <=? Py.rfind s c) eqn:E; [lia|]. destruct (Ascii.eqb a c); lia.
Qed.

(** In a string that does not end with [c], the last [c] is not the last
    character. *)
Lemma rfind_not_last s c :
  Py.endswith s c = false → 0 <= Py.rfind s c → Py.rfind s c + 1 < Py.len s.
Proof.
  unfold Py.len. induction s as [|a s IH]; simpl Py.rfind; [lia|].
  intros He. destruct s as [|b s'].
  - simpl in *. rewrite He. lia.
  - specialize (IH He). remember (String b s') as s.
    destruct (0 <=? Py.rfind s c) eqn:E.
    + intros _. apply Z.leb_le in E. specialize (IH E).
      simpl String.length. lia.
    + destruct (Ascii.eqb a c); [|lia]. intros _. subst s. simpl String.length. lia.
Qed.

Lemma take_length n s : String.length (Py.take n s) = (n `min` String.length s)%nat.
Proof.
  revert s; induction n as [|n IH]; intros [|a s]; simpl; try done.
  by rewrite IH.
Qed.

(** Each climb strictly shortens the directory URL: the loop's variant. *)
Lemma climb_decreases base_url current_url next_url :
  climb base_url current_url = Some next_url →
  (String.length next_url < String.length current_url)%nat.
Proof.
  unfold climb.
  destruct (String.eqb _ _); [done|].
  destruct (Py.rfind _ _ =? -1) eqn:Ek; [done|].
  destruct (_ <? _); [done|]. intros [= <-].
  apply Z.eqb_neq in Ek.
  pose proof (rfind_lower (Py.rstrip current_url "/") "/").
  pose proof (rfind_not_last (Py.rstrip current_url "/") "/"
                (rstrip_not_endswith _ _)) as Hl.
  pose proof (rstrip_length current_url "/").
  unfold Py.slice_to. rewrite take_length. unfold Py.len in Hl. lia.
Qed.

End StringFacts.

(** A value together with the equation that names it, so that the branch
    taken by the loop body is known where the recursive call is made. *)
Definition inspect {A : Type} (a : A) : {b : A | a = b} := exist _ a eq_refl.

(** The [while True] loop of [rebuild_paths], on the loop state
    [(current_url, urls)]. *)
Equations? rebuild_loop (base_url clean_path current_url : string) (urls : list string)
  : list string by wf (String.length current_url) lt :=
  rebuild_loop base_url clean_path current_url urls
    with inspect (climb base_url current_url) := {
    | exist _ None _ => urls ++ [full_url current_url clean_path];
    | exist _ (Some next_url) e =>
        rebuild_loop base_url clean_path next_url
          (urls ++ [full_url current_url clean_path]) }.
Proof. by apply climb_decreases in e. Qed.

Definition rebuild_paths (base_url js_dir_url relative_path : string) : list string :=
  rebuild_loop base_url (clean_relative relative_path) js_dir_url [].

(** ** The anchored regular expressions of the program

    Every pattern the program itself passes to [re.match] has the shape
    [^R$] with [R] built from character classes, concatenation and
    repetition.  [R] is kept as a syntax tree and matched with
    derivatives; [re.match] on [^R$] succeeds when the whole text is in
    the language of [R], or when the text ends in a newline and the text
    before that newline is ([$] also matches just before a final
    newline). *)

Module Re.

Inductive regex : Type :=
| Void
| Eps
| Class (p : ascii → bool)
| Cat (r1 r2 : regex)
| Alt (r1 r2 : regex)
| Star (r : regex).

(** [r+] and [r{2,}] *)
Definition Plus (r : regex) : regex := Cat r (Star r).
Definition AtLeast2 (r : regex) : regex := Cat r (Plus r).

Fixpoint nullable (r : regex) : bool :=
  match r with
  | Void => false
  | Eps => true
  | Class _ => false
  | Cat r1 r2 => nullable r1 && nullable r2
  | Alt r1 r2 => nullable r1 || nullable r2
  | Star _ => true
  end.

Fixpoint deriv (a : ascii) (r : regex) : regex :=
  match r with
  | Void => Void
  | Eps => Void
  | Class p => if p a then Eps else Void
  | Cat r1 r2 =>
      if nullable r1 then Alt (Cat (deriv a r1) r2) (deriv a r2)
      else Cat (deriv a r1) r2
  | Alt r1 r2 => Alt (deriv a r1) (deriv a r2)
  | Star r' => Cat (deriv a r') (Star r')
  end.

(** The whole of [s] is in the language of [r]. *)
Fixpoint fullmatch (r : regex) (s : string) : bool :=
  match s with
  | EmptyString => nullable r
  | String a s' => fullmatch (deriv a r) s'
  end.

Definition newline : ascii := ascii_of_nat 10.

(** [s] without its last character. *)
Fixpoint chop (s : string) : string :=
  match s with
  | EmptyString => EmptyString
  | String _ EmptyString => EmptyString
  | String a s' => String a (chop s')
  end.

(** [re.match('^R$', s) is not None] *)
Definition match_anchored (r : regex) (s : string) : bool :=
  fullmatch r s || (Py.endswith s newline && fullmatch r (chop s)).

(** Character classes. *)
Definition between (lo hi c : ascii) : bool :=
  (N_of_ascii lo <=? N_of_ascii c)%N && (N_of_ascii c <=? N_of_ascii hi)%N.
Definition lower (c : ascii) : bool := between "a" "z" c.
Definition upper (c : ascii) : bool := between "A" "Z" c.
Definition digit (c : ascii) : bool := between "0" "9" c.
Definition letter (c : ascii) : bool := lower c || upper c.
Definition one_of (cs : string) (c : ascii) : bool := Py.contains cs c.

(** [\w] on [str]: letters, digits and [_], and the alphanumeric code
    points of the range U+0080 to U+00FF. *)
Definition word (c : ascii) : bool :=
  letter c || digit c || Ascii.eqb c "_"
  || (let n := N_of_ascii c in
      (n =? 170) || (n =? 178) || (n =? 179) || (n =? 181) || (n =? 185)
      || (n =? 186) || (n =? 188) || (n =? 189) || (n =? 190)
      || ((192 <=? n) && (n <=? 214)) || ((216 <=? n) && (n <=? 246))
      || (248 <=? n))%N.

End Re.

(** ** [extract_base_url_from_path] *)

(** [[a-zA-Z0-9.-]+\.[a-zA-Z]{2,}] *)
Definition domain_re : Re.regex :=
  Re.Cat (Re.Plus (Re.Class (λ c, Re.letter c || Re.digit c || Re.one_of ".-" c)))
    (Re.Cat (Re.Class (Re.one_of "."))
       (Re.AtLeast2 (Re.Class Re.letter))).

(** The test of the [for] loop: ['.' in part and re.match(r'^...$', part)]. *)
Definition looks_like_domain (part : string) : bool :=
  Py.contains part "." && Re.match_anchored domain_re part.

(** The [for i, part in enumerate(parts)] loop: the first part that looks
    like a domain, with the path that follows it ([parts[i+1:]] joined,
    left empty when the domain is the last part). *)
Fixpoint find_domain (parts : list string) : option string * string :=
  match parts with
  | [] => (None, "")
  | part :: rest =>
      if looks_like_domain part then
        (Some part, match rest with [] => "" | _ => Py.join "/" rest end)
      else find_domain rest
  end.

(** Python truth of [domain]: neither [None] nor the empty string. *)
Definition truthy (o : option string) : bool :=
  match o with
  | Some (String _ _) => true
  | _ => false
  end.

Definition extract_base_url_from_path (js_file_path : string)
  : option string * option string :=
  let normalized_path := Py.replace js_file_path "\" "/" in
  let parts := Py.split normalized_path "/" in
  match find_domain parts with
  | (Some domain, js_relative_path) =>
      if truthy (Some domain) then
        let base_url := "https://" +:+ domain +:+ "/" in
        let js_full_url := "https://" +:+ domain +:+ "/" +:+ js_relative_path in
        let js_dir_url := Py.rsplit1_head js_full_url "/" +:+ "/" in
        (Some base_url, Some js_dir_url)
      else (None, None)
  | (None, _) => (None, None)
  end.

(** ** [write_path_rebuild_file] *)

(** The cleaning done on a path before [rebuild_paths] is called: spaces
    are removed, then one leading [./], [../] or [.]. *)
Definition strip_relative_prefix (path : string) : string :=
  let clean_path := Py.replace path " " "" in
  if Py.startswith clean_path "./" then Py.slice_from clean_path 2
  else if Py.startswith clean_path "../" then Py.slice_from clean_path 3
  else if Py.startswith clean_path "." then Py.slice_from clean_path 1
  else clean_path.

(** The body of [for path in paths]: the URLs written for one path. *)
Definition rebuild_entry (base_url js_dir_url path : string) : list string :=
  if Py.startswith path "." then
    rebuild_paths base_url js_dir_url (strip_relative_prefix path)
  else [].

(** The lines written to [new_path_rebuild], in order.  [results] is the
    dictionary of the run, as its items in insertion order. *)
Definition write_path_rebuild_file (results : list (string * list string))
  : list string :=
  flat_map
    (λ '(js_file, paths),
      match extract_base_url_from_path js_file with
      | (Some base_url, Some js_dir_url) =>
          if truthy (Some base_url) then
            flat_map (rebuild_entry base_url js_dir_url) paths
          else []
      | _ => []
      end)
    results.

(** ** [extract_paths] *)

Definition dq : string := String (ascii_of_nat 34) EmptyString.
Definition nl : string := String Re.newline EmptyString.

Definition PATH_REGEX : string :=
  Py.join nl
    [ "";
      "    (?:" +:+ dq +:+ "|')                                 # Opening quote";
      "    (";
      "        (?:[a-zA-Z]{1,10}://|//)            # Full URL with scheme";
      "        [^" +:+ dq +:+ "'/]{1,}\.";
      "        [a-zA-Z]{2,}[^" +:+ dq +:+ "']{0,}";
      "        |";
      "        (?:/|\.\./|\./)                     # Relative paths";
      "        [^" +:+ dq +:+ "'><,;| *()(%%$^/\\\[\]]";
      "        [^" +:+ dq +:+ "'><,;|()]{1,}";
      "        |";
      "        [a-zA-Z0-9_\-/]{1,}/                # Endpoints with extensions";
      "        [a-zA-Z0-9_\-/.]{1,}";
      "        \.(?:[a-zA-Z]{1,4}|action)";
      "        (?:[\?|#][^" +:+ dq +:+ "|']{0,}|)";
      "        |";
      "        [a-zA-Z0-9_\-/]{1,}/                # REST API endpoints";
      "        [a-zA-Z0-9_\-/]{3,}";
      "        (?:[\?|#][^" +:+ dq +:+ "|']{0,}|)";
      "        |";
      "        [a-zA-Z0-9_\-]{1,}                  # Filenames";
      "        \.(?:php|asp|aspx|jsp|json|action|html|js|txt|xml)";
      "        (?:[\?|#][^" +:+ dq +:+ "|']{0,}|)";
      "    )";
      "    (?:" +:+ dq +:+ "|')                                 # Closing quote";
      "" ].

(** Exceptions that can leave [extract_paths]. *)
Inductive exn : Type :=
| re_error     (* [re.compile] rejects the pattern *)
| IndexError.  (* [match.group(1)]: no such group *)

Inductive result (A : Type) : Type :=
| Ok (a : A)
| Raise (e : exn).
Arguments Ok {A} a.
Arguments Raise {A} e.

(** An exception raised by a statement leaves the function at once. *)
#[export] Instance result_bind : MBind result :=
  λ A B (k : A → result B) (r : result A),
    match r with
    | Ok a => k a
    | Raise e => Raise e
    end.

(** A match object, as far as the program reads it: the values of the
    numbered groups 1, 2, ..., [None] for a group that took no part in the
    match. *)
Record match_object : Type := { groups : list (option string) }.

(** [m.group(n)] for [1 <= n] *)
Definition group (m : match_object) (n : nat) : result (option string) :=
  match groups m !! (n - 1)%nat with
  | Some g => Ok g
  | None => Raise IndexError
  end.

(** [re] and [jsbeautifier] are libraries the program imports; what the
    program relies on is their interface. *)
Class Libraries : Type := {
  (** a compiled pattern object *)
  pattern : Type;
  (** [re.compile(p, re.VERBOSE)]; [None] when it raises [re.error] *)
  re_compile_verbose : string → option pattern;
  (** [list(regex.finditer(content))], the matches from left to right *)
  finditer : pattern → string → list match_object;
  (** [jsbeautifier.beautify(content)]; [None] when it raises *)
  beautify : string → option string
}.

(** [is_mime_type]: [^[a-z]+/[a-z0-9\-\+\.]+$] with [re.IGNORECASE] *)
Definition mime_re : Re.regex :=
  Re.Cat (Re.Plus (Re.Class Re.letter))
    (Re.Cat (Re.Class (Re.one_of "/"))
       (Re.Plus (Re.Class (λ c, Re.letter c || Re.digit c || Re.one_of "-+." c)))).

Definition is_mime_type (text : string) : bool := Re.match_anchored mime_re text.

(** [skip_patterns], for a given [path] *)
Definition skip_patterns (path : string) : list (option Re.regex) :=
  [ Some (Re.Class Re.letter);                         (* ^[a-zA-Z]$ *)
    Some (Re.Plus (Re.Class Re.digit));                (* ^[0-9]+$   *)
    if Py.len path <? 3 then Some (Re.Plus (Re.Class Re.word)) else None ].

(** The inner [for pattern in skip_patterns] loop. *)
Definition should_skip (path : string) : bool :=
  existsb (λ p, match p with
                | Some r => Re.match_anchored r path
                | None => false
                end)
          (skip_patterns path).

(** The body of [for match in regex.finditer(content)], given the value
    of [match.group(1)]: the new value of [all_matches]. *)
Definition visit (path : option string) (all_matches : list string) : list string :=
  if truthy path then
    match path with
    | Some path =>
        if is_mime_type path then all_matches
        else if should_skip path then all_matches
        else all_matches ++ [path]
    | None => all_matches
    end
  else all_matches.

Fixpoint scan (matches : list match_object) (all_matches : list string)
  : result (list string) :=
  match matches with
  | [] => Ok all_matches
  | m :: matches' =>
      path ← group m 1;
      scan matches' (visit path all_matches)
  end.

(** The last loop: duplicates removed, order kept.  The state is
    [(unique_paths, seen)]. *)
Definition remember (st : list string * gset string) (path : string)
  : list string * gset string :=
  let '(unique_paths, seen) := st in
  if decide (path ∈ seen) then (unique_paths, seen)
  else (unique_paths ++ [path], seen ∪ {[path]}).

Definition remove_duplicates (all_matches : list string) : list string :=
  fst (foldl remember ([], ∅) all_matches).

Section Extraction.

Context `{L : Libraries}.

(** The [try] block: a failure of the beautifier leaves [content] as it
    was. *)
Definition beautified (content : string) : string :=
  if 1000000 <? Py.len content then
    Py.replace (Py.replace content ";" (";" +:+ nl)) "," ("," +:+ nl)
  else
    match beautify content with
    | Some c => c
    | None => content
    end.

(** [custom_regex if custom_regex else PATH_REGEX] *)
Definition chosen_regex (custom_regex : option string) : string :=
  if truthy custom_regex then default PATH_REGEX custom_regex else PATH_REGEX.

Definition extract_paths (content : string) (custom_regex : option string)
  : result (list string) :=
  let content := beautified content in
  match re_compile_verbose (chosen_regex custom_regex) with
  | None => Raise re_error
  | Some regex =>
      all_matches ← scan (finditer regex content) [];
      Ok (remove_duplicates all_matches)
  end.

End Extraction.

(** The candidate filter on a sequence of candidate texts: the rejection
    rules, then the removal of duplicates. *)
Definition candidate_filter (raw : list string) : list string :=
  remove_duplicates (foldl (λ all_matches path, visit (Some path) all_matches) [] raw).

(** ** Notions used to state the properties *)

(** The directory URLs the loop visits, in order: the values of
    [current_url] at the successive appends. *)
Equations? levels (base_url current_url : string) : list string
  by wf (String.length current_url) lt :=
  levels base_url current_url with inspect (climb base_url current_url) := {
    | exist _ None _ => [current_url];
    | exist _ (Some next_url) e => current_url :: levels base_url next_url }.
Proof. by apply climb_decreases in e. Qed.

(** Runs of the [while True] loop, iteration by iteration:
    [loop_run base clean n current urls res] says that the loop entered
    with [current_url = current] and [urls] leaves through a [break] after
    exactly [n] iterations, with [urls = res]. *)
Inductive loop_run (base_url clean_path : string)
  : nat → string → list string → list string → Prop :=
| run_break current_url urls :
    climb base_url current_url = None →
    loop_run base_url clean_path 1 current_url urls
      (urls ++ [full_url current_url clean_path])
| run_again n current_url next_url urls res :
    climb base_url current_url = Some next_url →
    loop_run base_url clean_path n next_url
      (urls ++ [full_url current_url clean_path]) res →
    loop_run base_url clean_path (S n) current_url urls res.

(** The value of [match.group(1)] for a match that has a first group. *)
Definition group1 (m : match_object) : option string :=
  default None (groups m !! 0%nat).

(** The rejection rules, on a candidate text: the tests that make [visit]
    leave [all_matches] as it is. *)
Definition rejected (path : string) : bool :=
  negb (truthy (Some path)) || is_mime_type path || should_skip path.

(** What one raw match contributes to [all_matches]. *)
Definition candidate (path : option string) : option string :=
  match path with
  | Some p => if rejected p then None else Some p
  | None => None
  end.


(** The texts of [l] that are not in [seen], each at its first occurrence. *)
Fixpoint first_seen (seen : gset string) (l : list string) : list string :=
  match l with
  | [] => []
  | x :: l' =>
      if decide (x ∈ seen) then first_seen seen l'
      else x :: first_seen (seen ∪ {[x]}) l'
  end.

(** A small instance of the library interface, for examples: patterns
    that are one word of letters and digits, bare ([abc]) or as one group
    ([(abc)]).  On these [re.compile] succeeds, the bare pattern has no
    group and the other has one, and [finditer] finds the occurrences of
    the word from left to right; an unclosed [(] is an error, as in [re].
    Every other pattern is outside this instance and is refused by it.
    The beautifier is taken to return the text unchanged, as it does on
    the one-word texts of the examples. *)
Module LiteralRe.

Inductive word_pattern : Type :=
| Bare (w : string)
| Grouped (w : string).

Fixpoint all_chars (p : ascii → bool) (s : string) : bool :=
  match s with
  | EmptyString => true
  | String a s' => p a && all_chars p s'
  end.

Definition is_word (w : string) : bool :=
  truthy (Some w) && all_chars (λ c, Re.letter c || Re.digit c) w.

Definition compile (p : string) : option word_pattern :=
  if is_word p then Some (Bare p)
  else
    match p with
    | String "(" rest =>
        if Py.endswith rest ")" && is_word (Re.chop rest)
        then Some (Grouped (Re.chop rest))
        else None
    | _ => None
    end.

(** The number of occurrences of [w] in [s] that do not overlap, scanning
    from the left; [skip] characters are passed over first. *)
Fixpoint occurrences (w s : string) (skip : nat) : nat :=
  match s with
  | EmptyString => 0
  | String _ s' =>
      match skip with
      | S k => occurrences w s' k
      | O =>
          if Py.startswith s w
          then S (occurrences w s' (String.length w - 1))
          else occurrences w s' 0
      end
  end.

Definition find (p : word_pattern) (s : string) : list match_object :=
  match p with
  | Bare w => replicate (occurrences w s 0) {| groups := [] |}
  | Grouped w => replicate (occurrences w s 0) {| groups := [Some w] |}
  end.

#[export] Instance lib : Libraries := {|
  pattern := word_pattern;
  re_compile_verbose := compile;
  finditer := find;
  beautify := Some
|}.

End LiteralRe.

(** The language of a regular expression, to check the matcher against. *)
Inductive star (P : string → Prop) : string → Prop :=
| star_nil : star P ""
| star_cons s1 s2 : P s1 → star P s2 → star P (s1 +:+ s2).

Fixpoint denotes (r : Re.regex) (s : string) : Prop :=
  match r with
  | Re.Void => False
  | Re.Eps => s = ""
  | Re.Class p => ∃ a, p a = true ∧ s = String a ""
  | Re.Cat r1 r2 => ∃ s1 s2, s = s1 +:+ s2 ∧ denotes r1 s1 ∧ denotes r2 s2
  | Re.Alt r1 r2 => denotes r1 s ∨ denotes r2 s
  | Re.Star r' => star (denotes r') s
  end.


(** ** Properties of [rebuild_paths] *)

Section RebuildFacts.

Lemma append_cons a (s t : string) : String a s +:+ t = String a (s +:+ t).
Proof. reflexivity. Qed.

Lemma append_empty_l (t : string) : "" +:+ t = t.
Proof. reflexivity. Qed.

Lemma append_nil_r (s : string) : s +:+ "" = s.
Proof. induction s as [|a s IH]; [done|]. by rewrite append_cons, IH. Qed.

Lemma append_assoc (s t u : string) : (s +:+ t) +:+ u = s +:+ t +:+ u.
Proof. induction s as [|a s IH]; [done|]. by rewrite !append_cons, IH. Qed.

Lemma endswith_chop s c :
  Py.endswith s c = true → s = Re.chop s +:+ String c "".
Proof.
  induction s as [|a s IH]; [done|].
  destruct s as [|b s'].
  - simpl. intros ->%Ascii.eqb_eq. done.
  - intros H. specialize (IH H). change (Re.chop (String a (String b s')))
      with (String a (Re.chop (String b s'))). by rewrite append_cons, <- IH.
Qed.

Lemma levels_break base_url current_url :
  climb base_url current_url = None → levels base_url current_url = [current_url].
Proof. intros Hc. funelim (levels base_url current_url); congruence. Qed.

Lemma levels_again base_url current_url next_url :
  climb base_url current_url = Some next_url →
  levels base_url current_url = current_url :: levels base_url next_url.
Proof. intros Hc. funelim (levels base_url current_url); congruence. Qed.

Lemma rebuild_loop_break base_url clean_path current_url urls :
  climb base_url current_url = None →
  rebuild_loop base_url clean_path current_url urls
  = urls ++ [full_url current_url clean_path].
Proof.
  intros Hc. funelim (rebuild_loop base_url clean_path current_url urls); congruence.
Qed.

Lemma rebuild_loop_again base_url clean_path current_url next_url urls :
  climb base_url current_url = Some next_url →
  rebuild_loop base_url clean_path current_url urls
  = rebuild_loop base_url clean_path next_url
      (urls ++ [full_url current_url clean_path]).
Proof.
  intros Hc. funelim (rebuild_loop base_url clean_path current_url urls); congruence.
Qed.

(** The loop appends, in order, the joins of the visited directories. *)
Lemma rebuild_loop_levels base_url clean_path current_url urls :
  rebuild_loop base_url clean_path current_url urls
  = urls ++ map (λ dir, full_url dir clean_path) (levels base_url current_url).
Proof.
  funelim (rebuild_loop base_url clean_path current_url urls).
  - rewrite (levels_again _ _ _ e). rewrite H, <- app_assoc. done.
  - by rewrite levels_break.
Qed.

Lemma rebuild_paths_levels base_url js_dir_url relative_path :
  rebuild_paths base_url js_dir_url relative_path
  = map (λ dir, full_url dir (clean_relative relative_path))
        (levels base_url js_dir_url).
Proof. unfold rebuild_paths. by rewrite rebuild_loop_levels. Qed.

Lemma climb_guard base_url current_url next_url :
  climb base_url current_url = Some next_url →
  Py.len (Py.rstrip base_url "/") <= Py.len (Py.rstrip next_url "/").
Proof.
  unfold climb.
  destruct (String.eqb _ _); [done|].
  destruct (Py.rfind _ _ =? -1); [done|].
  destruct (_ <? _) eqn:Hlt; [done|]. intros [= <-].
  by apply Z.ltb_ge in Hlt.
Qed.

Lemma levels_bounded base_url current_url :
  Py.len (Py.rstrip base_url "/") <= Py.len (Py.rstrip current_url "/") →
  Forall (λ dir, Py.len (Py.rstrip base_url "/") <= Py.len (Py.rstrip dir "/"))
         (levels base_url current_url).
Proof.
  funelim (levels base_url current_url); intros Hstart.
  - constructor; [done|]. apply H. exact (climb_guard _ _ _ e).
  - by constructor.
Qed.

Lemma levels_length base_url current_url :
  (1 ≤ length (levels base_url current_url) ≤ S (String.length current_url))%nat.
Proof.
  funelim (levels base_url current_url); simpl; [|lia].
  pose proof (climb_decreases _ _ _ e). lia.
Qed.

Lemma loop_run_levels base_url clean_path current_url urls :
  loop_run base_url clean_path (length (levels base_url current_url))
    current_url urls (rebuild_loop base_url clean_path current_url urls).
Proof.
  funelim (rebuild_loop base_url clean_path current_url urls).
  - rewrite (levels_again _ _ _ e). simpl. by eapply run_again.
  - rewrite levels_break by done. by apply run_break.
Qed.

(** The loop is a function of its state: a run has one length and one
    result. *)
Lemma loop_run_functional base_url clean_path n m current_url urls res res' :
  loop_run base_url clean_path n current_url urls res →
  loop_run base_url clean_path m current_url urls res' →
  n = m ∧ res = res'.
Proof.
  intros Hn. revert m res'.
  induction Hn as [cur urls Hc|n cur nxt urls res Hc Hn IH]; intros m res' Hm.
  - inversion Hm; subst; [done|congruence].
  - inversion Hm; subst; [congruence|].
    assert (nxt = next_url) as -> by congruence.
    destruct (IH _ _ H0) as [-> ->]. done.
Qed.

End RebuildFacts.

(** ** The matcher decides the language of the expression *)

Section RegexFacts.

Lemma append_eq_empty (s t : string) : s +:+ t = "" → s = "" ∧ t = "".
Proof. destruct s; [done|]. rewrite append_cons. done. Qed.

Lemma nullable_sound r : Re.nullable r = true → denotes r "".
Proof.
  induction r as [| |p|r1 IH1 r2 IH2|r1 IH1 r2 IH2|r IH]; simpl; try done.
  - intros [H1 H2]%andb_true_iff. exists "", "". auto.
  - intros [H|H]%orb_true_iff; auto.
  - intros _. constructor.
Qed.

Lemma nullable_complete r : denotes r "" → Re.nullable r = true.
Proof.
  induction r as [| |p|r1 IH1 r2 IH2|r1 IH1 r2 IH2|r IH]; simpl; try done.
  - intros (a & _ & ?). done.
  - intros (s1 & s2 & Hs & H1 & H2).
    symmetry in Hs. apply append_eq_empty in Hs as [-> ->].
    rewrite IH1, IH2; done.
  - intros [H|H]; [rewrite IH1|rewrite IH2]; try done. apply orb_true_r.
Qed.

Lemma deriv_sound a r s : denotes (Re.deriv a r) s → denotes r (String a s).
Proof.
  revert s.
  induction r as [| |p|r1 IH1 r2 IH2|r1 IH1 r2 IH2|r IH]; simpl; intros s; try done.
  - destruct (p a) eqn:Hp; simpl; [|done]. intros ->. eauto.
  - destruct (Re.nullable r1) eqn:Hn; simpl.
    + intros [(s1 & s2 & -> & H1 & H2)|H].
      * exists (String a s1), s2. auto.
      * exists "", (String a s). split; [done|]. auto using nullable_sound.
    + intros (s1 & s2 & -> & H1 & H2). exists (String a s1), s2. auto.
  - intros [H|H]; auto.
  - intros (s1 & s2 & -> & H1 & H2).
    rewrite <- append_cons. constructor; auto.
Qed.

(** A non-empty word of [r*] starts with a non-empty word of [r]. *)
Lemma star_cons_inv (P : string → Prop) a s :
  star P (String a s) → ∃ s1 s2, s = s1 +:+ s2 ∧ P (String a s1) ∧ star P s2.
Proof.
  intros H. remember (String a s) as w eqn:Hw. revert Hw.
  induction H as [|s1 s2 H1 H2 IH]; [done|].
  destruct s1 as [|b s1].
  - rewrite append_empty_l. auto.
  - rewrite append_cons. intros [= -> <-]. eauto.
Qed.

Lemma deriv_complete a r s : denotes r (String a s) → denotes (Re.deriv a r) s.
Proof.
  revert s.
  induction r as [| |p|r1 IH1 r2 IH2|r1 IH1 r2 IH2|r IH]; simpl; intros s; try done.
  - intros (b & Hp & [= <- ->]). by rewrite Hp.
  - intros (s1 & s2 & Hs & H1 & H2). destruct s1 as [|b s1].
    + rewrite append_empty_l in Hs. subst s2.
      rewrite (nullable_complete _ H1). simpl. auto.
    + rewrite append_cons in Hs. injection Hs as <- ->.
      destruct (Re.nullable r1); simpl; [left|]; exists s1, s2; auto.
  - intros [H|H]; auto.
  - intros (s1 & s2 & -> & H1 & H2)%star_cons_inv. exists s1, s2. auto.
Qed.

Lemma fullmatch_denotes r s : Re.fullmatch r s = true ↔ denotes r s.
Proof.
  revert r. induction s as [|a s IH]; intros r; simpl.
  - split; [apply nullable_sound|apply nullable_complete].
  - rewrite IH. split; [apply deriv_sound|apply deriv_complete].
Qed.

(** [re.match] on [^R$]: the text is a word of [R], or such a word
    followed by one newline. *)
Lemma match_anchored_denotes r s :
  Re.match_anchored r s = true
  ↔ denotes r s ∨ ∃ t, s = t +:+ nl ∧ denotes r t.
Proof.
  unfold Re.match_anchored.
  rewrite orb_true_iff, andb_true_iff, !fullmatch_denotes.
  split; (intros [H|H]; [by left|right]).
  - destruct H as [He H]. exists (Re.chop s). split; [|done].
    by apply endswith_chop.
  - destruct H as (t & -> & H).
    assert (Py.endswith (t +:+ nl) Re.newline = true ∧ Re.chop (t +:+ nl) = t)
      as [-> ->]; [|done].
    clear H. induction t as [|a t [IH1 IH2]]; [by vm_compute|].
    rewrite append_cons. destruct (t +:+ nl) as [|b u] eqn:E.
    { destruct t; discriminate. }
    split; [exact IH1|]. simpl in *. by rewrite IH2.
Qed.

End RegexFacts.

Section RebuildTheorems.

(** C1 (as amended).  For base URL [https://example.com/] and directory
    URL [https://example.com/app/js/], [write_path_rebuild_file] turns the
    candidate [../api/data.json] into [api/data.json] (the leading [../]
    is removed whole) and writes exactly three URLs, deepest directory
    first, the join with the base URL last. *)
Theorem rebuild_dotdot_candidate :
  strip_relative_prefix "../api/data.json" = "api/data.json"
  ∧ rebuild_entry "https://example.com/" "https://example.com/app/js/"
      "../api/data.json"
    = [ "https://example.com/app/js/api/data.json";
        "https://example.com/app/api/data.json";
        "https://example.com/api/data.json" ]
  ∧ last (rebuild_entry "https://example.com/" "https://example.com/app/js/"
            "../api/data.json")
    = Some (full_url "https://example.com/" "api/data.json").
Proof. by vm_compute. Qed.

(** C1 (as stated) fails: the candidate [../api/data.json] is never cut
    down to [/api/data.json], neither by [write_path_rebuild_file] nor by
    [rebuild_paths]; and [rebuild_paths], given [/api/data.json] or the
    candidate itself, does not return the three URLs of the claim. *)
Lemma dotdot_candidate_not_cut_to_slash :
  strip_relative_prefix "../api/data.json" ≠ "/api/data.json"
  ∧ clean_relative "../api/data.json" ≠ "/api/data.json"
  ∧ rebuild_paths "https://example.com/" "https://example.com/app/js/"
      "/api/data.json"
    ≠ [ "https://example.com/app/js/api/data.json";
        "https://example.com/app/api/data.json";
        "https://example.com/api/data.json" ]
  ∧ rebuild_paths "https://example.com/" "https://example.com/app/js/"
      "../api/data.json"
    ≠ [ "https://example.com/app/js/api/data.json";
        "https://example.com/app/api/data.json";
        "https://example.com/api/data.json" ].
Proof. by vm_compute. Qed.



(** C3.  When the directory URL, slash-trimmed, is at least as long as the
    base URL, slash-trimmed, every URL [rebuild_paths] returns is the join
    of the cleaned candidate with a directory URL whose slash-trimmed
    length is at least that of the base URL: the climb stops before it
    passes the site root. *)
Theorem rebuild_never_above_base base_url js_dir_url relative_path :
  Py.len (Py.rstrip base_url "/") <= Py.len (Py.rstrip js_dir_url "/") →
  rebuild_paths base_url js_dir_url relative_path
  = map (λ dir, full_url dir (clean_relative relative_path))
        (levels base_url js_dir_url)
  ∧ Forall (λ dir, Py.len (Py.rstrip base_url "/") <= Py.len (Py.rstrip dir "/"))
           (levels base_url js_dir_url)
  ∧ Forall (λ url, ∃ dir,
                url = full_url dir (clean_relative relative_path)
                ∧ Py.len (Py.rstrip base_url "/") <= Py.len (Py.rstrip dir "/"))
           (rebuild_paths base_url js_dir_url relative_path).
Proof.
  intros Hstart.
  pose proof (levels_bounded _ _ Hstart) as Hb.
  split; [apply rebuild_paths_levels|]. split; [done|].
  rewrite rebuild_paths_levels. apply Forall_fmap.
  eapply Forall_impl; [exact Hb|]. simpl. eauto.
Qed.

Lemma rebuild_never_above_base_witness :
  Py.len (Py.rstrip "https://example.com/" "/")
  <= Py.len (Py.rstrip "https://example.com/app/js/" "/")
  ∧ Forall (λ dir, Py.len (Py.rstrip "https://example.com/" "/")
                   <= Py.len (Py.rstrip dir "/"))
           (levels "https://example.com/" "https://example.com/app/js/").
Proof.
  split; [by vm_compute|].
  apply (rebuild_never_above_base "https://example.com/"
           "https://example.com/app/js/" "./x"). by vm_compute.
Defined.

(** C4.  For all three input strings the loop of [rebuild_paths] leaves
    through a [break] after finitely many iterations, at most one more
    than the length of the directory URL; the list it returns is not
    empty; and the loop has no other run. *)
Theorem rebuild_loop_terminates base_url js_dir_url relative_path :
  ∃ n : nat,
    (1 ≤ n ≤ S (String.length js_dir_url))%nat
    ∧ loop_run base_url (clean_relative relative_path) n js_dir_url []
        (rebuild_paths base_url js_dir_url relative_path)
    ∧ rebuild_paths base_url js_dir_url relative_path ≠ []
    ∧ length (rebuild_paths base_url js_dir_url relative_path) = n
    ∧ ∀ m res,
        loop_run base_url (clean_relative relative_path) m js_dir_url [] res →
        m = n ∧ res = rebuild_paths base_url js_dir_url relative_path.
Proof.
  exists (length (levels base_url js_dir_url)).
  pose proof (levels_length base_url js_dir_url) as Hlen.
  pose proof (loop_run_levels base_url (clean_relative relative_path)
                js_dir_url []) as Hrun.
  assert (length (rebuild_paths base_url js_dir_url relative_path)
          = length (levels base_url js_dir_url)) as Hl.
  { by rewrite rebuild_paths_levels, length_fmap. }
  split; [done|]. split; [exact Hrun|]. split.
  - intros Hnil. rewrite Hnil in Hl. simpl in Hl. lia.
  - split; [done|]. intros m res Hm.
    destruct (loop_run_functional _ _ _ _ _ _ _ _ Hm Hrun) as [-> ->]. done.
Qed.

End RebuildTheorems.

(** ** Properties of [extract_base_url_from_path] *)

Section OriginFacts.

Lemma contains_app s t c :
  Py.contains (s +:+ t) c = Py.contains s c || Py.contains t c.
Proof.
  induction s as [|a s IH]; [done|].
  rewrite append_cons. simpl. rewrite IH. by rewrite orb_assoc.
Qed.

(** A word of the domain expression contains a dot. *)
Lemma domain_has_dot s : denotes domain_re s → Py.contains s "." = true.
Proof.
  intros (s1 & s2 & -> & _ & s3 & s4 & -> & (a & Ha & ->) & _).
  rewrite !contains_app. unfold Re.one_of in Ha.
  change (Py.contains "." a) with (Ascii.eqb "." a || false) in Ha.
  rewrite orb_false_r in Ha. apply Ascii.eqb_eq in Ha as <-.
  change (Py.contains (String "." "") ".") with true.
  by rewrite orb_true_r.
Qed.

Lemma fullmatch_looks_like_domain s :
  Re.fullmatch domain_re s = true → looks_like_domain s = true.
Proof.
  intros H. unfold looks_like_domain, Re.match_anchored. rewrite H.
  apply fullmatch_denotes, domain_has_dot in H. by rewrite H.
Qed.

Lemma find_domain_last dirs filename :
  Forall (λ part, looks_like_domain part = false) dirs →
  looks_like_domain filename = true →
  find_domain (dirs ++ [filename]) = (Some filename, "").
Proof.
  intros Hd Hf. induction Hd as [|d dirs Hd _ IH]; simpl.
  - by rewrite Hf.
  - by rewrite Hd.
Qed.

Lemma rfind_append_char s c : Py.rfind (s +:+ String c "") c = Py.len s.
Proof.
  unfold Py.len. induction s as [|a s IH].
  - simpl. by rewrite Ascii.eqb_refl.
  - rewrite append_cons. simpl Py.rfind. rewrite IH.
    destruct (Z.leb_spec 0 (Z.of_nat (String.length s))); [|lia].
    change (String.length (String a s)) with (S (String.length s)). lia.
Qed.

Lemma take_append s t : Py.take (String.length s) (s +:+ t) = s.
Proof.
  induction s as [|a s IH]; [done|].
  rewrite append_cons. simpl. by rewrite IH.
Qed.

Lemma rsplit1_head_append_char s c : Py.rsplit1_head (s +:+ String c "") c = s.
Proof.
  unfold Py.rsplit1_head. rewrite rfind_append_char.
  destruct (Z.eqb_spec (Py.len s) (-1)) as [E|_]; [unfold Py.len in E; lia|].
  unfold Py.slice_to, Py.len. rewrite Nat2Z.id. apply take_append.
Qed.

End OriginFacts.

Section OriginTheorems.

(** C7.  For the file path [results/js_files/example.com/app/main.js] the
    base URL is [https://example.com/] and the directory URL is
    [https://example.com/app/]. *)
Theorem origin_of_example_path :
  extract_base_url_from_path "results/js_files/example.com/app/main.js"
  = (Some "https://example.com/", Some "https://example.com/app/").
Proof. by vm_compute. Qed.

(** C9.  When no directory part of the path looks like a domain and the
    last part, the file name, is a word of [[a-zA-Z0-9.-]+\.[a-zA-Z]{2,}],
    the file name is taken as the domain: the base URL is [https://], the
    file name and [/], and the directory URL is the same. *)
Theorem filename_taken_as_domain js_file_path dirs filename :
  Py.split (Py.replace js_file_path "\" "/") "/" = dirs ++ [filename] →
  Forall (λ part, looks_like_domain part = false) dirs →
  Re.fullmatch domain_re filename = true →
  extract_base_url_from_path js_file_path
  = (Some ("https://" +:+ filename +:+ "/"),
     Some ("https://" +:+ filename +:+ "/")).
Proof.
  intros Hparts Hdirs Hfile.
  pose proof (fullmatch_looks_like_domain _ Hfile) as Hlook.
  unfold extract_base_url_from_path. rewrite Hparts.
  rewrite (find_domain_last _ _ Hdirs Hlook).
  assert (truthy (Some filename) = true) as ->.
  { destruct filename; [done|done]. }
  rewrite append_nil_r.
  replace ("https://" +:+ filename +:+ "/")
    with (("https://" +:+ filename) +:+ "/") by apply append_assoc.
  by rewrite rsplit1_head_append_char.
Qed.

Lemma filename_taken_as_domain_witness :
  Py.split (Py.replace "out/bundle.js" "\" "/") "/" = ["out"] ++ ["bundle.js"]
  ∧ Forall (λ part, looks_like_domain part = false) ["out"]
  ∧ Re.fullmatch domain_re "bundle.js" = true
  ∧ extract_base_url_from_path "out/bundle.js"
    = (Some "https://bundle.js/", Some "https://bundle.js/").
Proof.
  assert (Forall (λ part, looks_like_domain part = false) ["out"]) as Hd.
  { repeat constructor. }
  split; [reflexivity|]. split; [exact Hd|]. split; [by vm_compute|].
  apply (filename_taken_as_domain "out/bundle.js" ["out"] "bundle.js");
    [reflexivity|exact Hd|by vm_compute].
Defined.

End OriginTheorems.

(** ** Spaces in the candidates written by [write_path_rebuild_file] *)

Section SpaceFacts.


Lemma replace_absent s c : Py.contains s c = false → Py.replace s c "" = s.
Proof.
  induction s as [|a s IH]; [done|]. simpl.
  intros [Ha Hs]%orb_false_iff. rewrite Ha, IH; done.
Qed.











End SpaceFacts.

Section SpaceTheorems.



End SpaceTheorems.

(** ** Properties of [extract_paths] *)

Section FilterFacts.

Lemma visit_candidate path all_matches :
  visit path all_matches = all_matches ++ option_list (candidate path).
Proof.
  unfold visit, candidate, rejected.
  destruct path as [[|a p]|]; simpl; try by rewrite app_nil_r.
  destruct (is_mime_type _); simpl; [by rewrite app_nil_r|].
  destruct (should_skip _); simpl; [by rewrite app_nil_r|done].
Qed.

Lemma foldl_visit raw all_matches :
  foldl (λ acc path, visit (Some path) acc) all_matches raw
  = all_matches ++ omap candidate (Some <$> raw).
Proof.
  revert all_matches. induction raw as [|p raw IH]; intros acc; simpl.
  - by rewrite app_nil_r.
  - rewrite IH, visit_candidate, <- app_assoc. f_equal.
    unfold candidate at 1 3. by destruct (rejected p).
Qed.

Lemma group_1 m : groups m ≠ [] → group m 1 = Ok (group1 m).
Proof. unfold group, group1. destruct (groups m); done. Qed.

Lemma scan_ok matches all_matches :
  Forall (λ m, groups m ≠ []) matches →
  scan matches all_matches
  = Ok (all_matches ++ omap candidate (group1 <$> matches)).
Proof.
  intros H. revert all_matches.
  induction H as [|m ms Hm _ IH]; intros acc; simpl.
  - by rewrite app_nil_r.
  - rewrite (group_1 _ Hm). simpl. rewrite IH, visit_candidate, <- app_assoc.
    do 2 f_equal. by destruct (candidate (group1 m)).
Qed.

Lemma scan_raises matches all_matches :
  Exists (λ m, groups m = []) matches →
  scan matches all_matches = Raise IndexError.
Proof.
  intros H. revert all_matches.
  induction matches as [|m ms IH]; intros acc; [by inversion H|].
  simpl. unfold group. change (1 - 1)%nat with 0%nat.
  destruct (groups m) as [|g gs] eqn:Hg; [done|]. simpl.
  apply IH. inversion H; subst; [congruence|done].
Qed.

Lemma foldl_remember l unique_paths seen :
  fst (foldl remember (unique_paths, seen) l)
  = unique_paths ++ first_seen seen l.
Proof.
  revert unique_paths seen. induction l as [|x l IH]; intros u s; simpl.
  - by rewrite app_nil_r.
  - destruct (decide (x ∈ s)); rewrite IH; [done|]. by rewrite <- app_assoc.
Qed.

Lemma remove_duplicates_first_seen l : remove_duplicates l = first_seen ∅ l.
Proof. unfold remove_duplicates. by rewrite foldl_remember. Qed.

Lemma elem_of_first_seen x seen l :
  x ∈ first_seen seen l ↔ x ∈ l ∧ x ∉ seen.
Proof.
  revert seen. induction l as [|y l IH]; intros s; simpl.
  - rewrite elem_of_nil. tauto.
  - destruct (decide (y ∈ s)) as [Hy|Hy].
    + rewrite IH, elem_of_cons. intuition (subst; tauto).
    + rewrite !elem_of_cons, IH, elem_of_union, elem_of_singleton.
      destruct (decide (x = y)) as [->|]; intuition (subst; tauto).
Qed.

Lemma NoDup_first_seen seen l : NoDup (first_seen seen l).
Proof.
  revert seen. induction l as [|y l IH]; intros s; simpl; [constructor|].
  destruct (decide (y ∈ s)); [done|].
  constructor; [|done]. rewrite elem_of_first_seen, elem_of_union, elem_of_singleton.
  tauto.
Qed.


Lemma first_seen_NoDup seen l :
  NoDup l → (∀ x, x ∈ l → x ∉ seen) → first_seen seen l = l.
Proof.
  intros Hnd. revert seen.
  induction Hnd as [|y l Hy Hnd IH]; intros s Hs; simpl; [done|].
  destruct (decide (y ∈ s)) as [Hin|_].
  { exfalso. apply (Hs y); [apply elem_of_cons; auto|done]. }
  f_equal. apply IH. intros x Hx.
  rewrite elem_of_union, elem_of_singleton. intros [Hin| ->]; [|done].
  apply (Hs x); [apply elem_of_cons; auto|done].
Qed.

Lemma elem_of_candidates x (raw : list (option string)) :
  x ∈ omap candidate raw ↔ Some x ∈ raw ∧ rejected x = false.
Proof.
  rewrite list_elem_of_omap. unfold candidate. split.
  - intros ([p|] & Hin & Hc); [|done].
    destruct (rejected p) eqn:E; [done|]. by injection Hc as ->.
  - intros [Hin Hr]. exists (Some x). by rewrite Hr.
Qed.

Lemma candidates_cons g (raw : list (option string)) :
  omap candidate (g :: raw)
  = match candidate g with
    | Some p => p :: omap candidate raw
    | None => omap candidate raw
    end.
Proof. reflexivity. Qed.


Lemma candidates_accepted (l : list string) :
  Forall (λ x, rejected x = false) l → omap candidate (Some <$> l) = l.
Proof.
  induction 1 as [|x l Hx _ IH]; [done|].
  rewrite fmap_cons, candidates_cons. simpl. by rewrite Hx, IH.
Qed.




End FilterFacts.

Section ExtractionTheorems.

Context `{L : Libraries}.

Lemma extract_paths_ok content custom_regex regex :
  re_compile_verbose (chosen_regex custom_regex) = Some regex →
  Forall (λ m, groups m ≠ []) (finditer regex (beautified content)) →
  extract_paths content custom_regex
  = Ok (first_seen ∅
          (omap candidate (group1 <$> finditer regex (beautified content)))).
Proof.
  intros Hre Hg. unfold extract_paths. rewrite Hre, (scan_ok _ _ Hg). simpl.
  by rewrite remove_duplicates_first_seen.
Qed.


(** C8 (as amended).  A custom pattern that does not compile makes
    [extract_paths] raise [re.error], whatever the text, and no list is
    returned; with a custom pattern that compiles and whose matches have
    a first group, [extract_paths] returns a list; with one that compiles
    and has a match without a first group, it raises [IndexError]. *)
Theorem extract_paths_custom_pattern content custom :
  custom ≠ "" →
  (re_compile_verbose custom = None →
   extract_paths content (Some custom) = Raise re_error)
  ∧ (∀ regex,
        re_compile_verbose custom = Some regex →
        Forall (λ m, groups m ≠ []) (finditer regex (beautified content)) →
        ∃ paths, extract_paths content (Some custom) = Ok paths)
  ∧ (∀ regex,
        re_compile_verbose custom = Some regex →
        Exists (λ m, groups m = []) (finditer regex (beautified content)) →
        extract_paths content (Some custom) = Raise IndexError).
Proof.
  intros Hne.
  assert (chosen_regex (Some custom) = custom) as Hch.
  { unfold chosen_regex. by destruct custom. }
  split; [|split].
  - intros Hre. unfold extract_paths. by rewrite Hch, Hre.
  - intros regex Hre Hg. eexists. apply extract_paths_ok; [|done].
    by rewrite Hch.
  - intros regex Hre Hg. unfold extract_paths.
    by rewrite Hch, Hre, (scan_raises _ _ Hg).
Qed.

End ExtractionTheorems.

Section FilterTheorems.

Lemma candidate_filter_first_seen raw :
  candidate_filter raw = first_seen ∅ (omap candidate (Some <$> raw)).
Proof.
  unfold candidate_filter. by rewrite foldl_visit, remove_duplicates_first_seen.
Qed.

Lemma candidates_of_texts (raw : list (option string)) :
  omap candidate (Some <$> omap id raw) = omap candidate raw.
Proof.
  induction raw as [|[p|] raw IH]; [done| |done].
  change (omap id (Some p :: raw)) with (p :: omap id raw).
  by rewrite fmap_cons, !candidates_cons, IH.
Qed.

(** [extract_paths] is the candidate filter applied to the texts of the
    raw matches. *)
Lemma extract_paths_candidate_filter `{L : Libraries} content custom_regex regex :
  re_compile_verbose (chosen_regex custom_regex) = Some regex →
  Forall (λ m, groups m ≠ []) (finditer regex (beautified content)) →
  extract_paths content custom_regex
  = Ok (candidate_filter
          (omap id (group1 <$> finditer regex (beautified content)))).
Proof.
  intros Hre Hg. unfold extract_paths. rewrite Hre, (scan_ok _ _ Hg). simpl.
  by rewrite remove_duplicates_first_seen, candidate_filter_first_seen,
    candidates_of_texts.
Qed.

(** C6.  The candidate filter is idempotent: the rejection rules and the
    removal of duplicates, applied to a list the filter returned, return
    that list. *)
Theorem candidate_filter_idempotent raw :
  candidate_filter (candidate_filter raw) = candidate_filter raw.
Proof.
  rewrite (candidate_filter_first_seen (candidate_filter raw)).
  rewrite candidates_accepted.
  - apply first_seen_NoDup.
    + rewrite candidate_filter_first_seen. apply NoDup_first_seen.
    + intros x _. apply not_elem_of_empty.
  - apply Forall_forall. intros x Hx.
    rewrite candidate_filter_first_seen in Hx.
    apply elem_of_first_seen in Hx as [Hx _].
    by apply elem_of_candidates in Hx as [_ Hx].
Qed.

End FilterTheorems.

Section ExtractionExamples.

(** C8 (as stated) fails: the pattern [a] compiles, and extraction from
    the text [a] raises [IndexError], because the match has no group 1. *)
Lemma groupless_pattern_raises :
  @re_compile_verbose LiteralRe.lib "a" = Some (LiteralRe.Bare "a")
  ∧ @extract_paths LiteralRe.lib "a" (Some "a") = Raise IndexError.
Proof. by vm_compute. Qed.

Lemma extract_paths_custom_pattern_witness :
  "(" ≠ ""
  ∧ @re_compile_verbose LiteralRe.lib "(" = None
  ∧ @extract_paths LiteralRe.lib "abc" (Some "(") = Raise re_error.
Proof.
  split; [done|]. split; [reflexivity|].
  apply (@extract_paths_custom_pattern LiteralRe.lib "abc" "("); [done|].
  reflexivity.
Defined.


End ExtractionExamples.

(** ** Worked examples *)

Section Examples.

Example mime_type_rejected : rejected "audio/ogg" = true.
Proof. reflexivity. Qed.

Example trivial_tokens_rejected :
  candidate_filter ["a"; "12"; "ab"; "/api/v1/users"; "./x.js"; "/api/v1/users"]
  = ["/api/v1/users"; "./x.js"].
Proof. by vm_compute. Qed.

Example site_example_origin :
  extract_base_url_from_path "out/site.example/bundle.js"
  = (Some "https://site.example/", Some "https://site.example/").
Proof. by vm_compute. Qed.

Example site_example_rebuild :
  write_path_rebuild_file
    [("out/site.example/bundle.js", ["./config/settings.json"; "/api/health"])]
  = ["https://site.example/config/settings.json"].
Proof. by vm_compute. Qed.

(** The join adds a slash only when the directory URL has none at its
    end; slashes that are already there are kept. *)
Example doubled_slash_kept :
  extract_base_url_from_path "a.com//x.js"
  = (Some "https://a.com/", Some "https://a.com//")
  ∧ rebuild_paths "https://a.com/" "https://a.com//" "x" = ["https://a.com//x"].
Proof. by vm_compute. Qed.

(** What [rebuild_paths] alone returns for a candidate that starts with
    [../] or with [/]: its own cleaning removes one dot only, and a leading
    slash of the candidate is kept after the slash of the directory. *)
Example rebuild_paths_on_raw_candidates :
  clean_relative "../api/data.json" = "./api/data.json"
  ∧ rebuild_paths "https://example.com/" "https://example.com/app/js/"
      "../api/data.json"
    = [ "https://example.com/app/js/./api/data.json";
        "https://example.com/app/./api/data.json";
        "https://example.com/./api/data.json" ]
  ∧ rebuild_paths "https://example.com/" "https://example.com/app/js/"
      "/api/data.json"
    = [ "https://example.com/app/js//api/data.json";
        "https://example.com/app//api/data.json";
        "https://example.com//api/data.json" ].
Proof. by vm_compute. Qed.

(** Spaces go first: [. ./x.js] becomes [../x.js] and then loses the
    whole prefix. *)
Example spaces_go_before_prefix :
  strip_relative_prefix ". ./x.js" = "x.js"
  ∧ rebuild_entry "https://a.com/" "https://a.com/" ". ./x.js"
    = ["https://a.com/x.js"].
Proof. by vm_compute. Qed.

(** Without an origin nothing is written for the file. *)
Example no_domain_no_urls :
  extract_base_url_from_path "out/js/bundle" = (None, None)
  ∧ write_path_rebuild_file [("out/js/bundle", ["./a.js"])] = [].
Proof. by vm_compute. Qed.

End Examples.

(** * More of the program *)

From stdpp Require Import sorting.

Local Open Scope Z_scope.

(** ** Further notions *)

(** The directory URLs from a root down a chain of directory names,
    shallowest first: [root], [root + s1 + "/"], [root + s1 + "/" + s2 +
    "/"], ... *)
Fixpoint nested_levels (root : string) (segs : list string) : list string :=
  match segs with
  | [] => [root]
  | seg :: rest => root :: nested_levels (root +:+ seg +:+ "/") rest
  end.

(** The directory names of a chain, each closed by a slash. *)
Fixpoint dirs (segs : list string) : string :=
  match segs with
  | [] => ""
  | seg :: rest => seg +:+ "/" +:+ dirs rest
  end.

(** ** The shape of what [rebuild_paths] returns *)

Section ClimbFacts.

Lemma startswith_refl s : Py.startswith s s = true.
Proof. induction s as [|a s IH]; [done|]. simpl. by rewrite Ascii.eqb_refl. Qed.

Lemma startswith_empty s : Py.startswith s "" = true.
Proof. by destruct s. Qed.

Lemma startswith_trans s t u :
  Py.startswith s t = true → Py.startswith t u = true → Py.startswith s u = true.
Proof.
  revert s t. induction u as [|c u IH]; intros s t Hst Htu; [apply startswith_empty|].
  destruct t as [|b t]; [done|]. destruct s as [|a s]; [done|].
  simpl in *. apply andb_true_iff in Hst as [Hab Hst], Htu as [Hbc Htu].
  apply Ascii.eqb_eq in Hab as ->. rewrite Hbc. simpl. eauto.
Qed.

Lemma startswith_app s t : Py.startswith (s +:+ t) s = true.
Proof.
  induction s as [|a s IH]; [apply startswith_empty|].
  rewrite append_cons. simpl. by rewrite Ascii.eqb_refl.
Qed.

Lemma startswith_split s p :
  Py.startswith s p = true → ∃ t, s = p +:+ t.
Proof.
  revert s. induction p as [|b p IH]; intros s H; [by exists s|].
  destruct s as [|a s]; [done|]. simpl in H.
  apply andb_true_iff in H as [->%Ascii.eqb_eq H].
  destruct (IH _ H) as [t ->]. by exists t.
Qed.

Lemma startswith_take n s : Py.startswith s (Py.take n s) = true.
Proof.
  revert s. induction n as [|n IH]; intros [|a s]; simpl; try done.
  by rewrite Ascii.eqb_refl, IH.
Qed.

Lemma startswith_rstrip s c : Py.startswith s (Py.rstrip s c) = true.
Proof.
  induction s as [|a s IH]; [done|]. simpl.
  destruct (Py.rstrip s c) eqn:E.
  - destruct (Ascii.eqb a c); [done|]. simpl. by rewrite Ascii.eqb_refl, startswith_empty.
  - simpl. by rewrite Ascii.eqb_refl.
Qed.

Lemma endswith_cons a s c :
  Py.endswith s c = true → Py.endswith (String a s) c = true.
Proof. by destruct s. Qed.

Lemma endswith_take_rfind s c :
  0 <= Py.rfind s c → Py.endswith (Py.take (Z.to_nat (Py.rfind s c + 1)) s) c = true.
Proof.
  induction s as [|a s IH]; [simpl; lia|]. simpl Py.rfind.
  destruct (Z.leb_spec 0 (Py.rfind s c)) as [Hk|Hk].
  - intros _. replace (Z.to_nat (Py.rfind s c + 1 + 1))
      with (S (Z.to_nat (Py.rfind s c + 1))) by lia.
    simpl. apply endswith_cons. auto.
  - destruct (Ascii.eqb a c) eqn:E; [|lia]. intros _. simpl. by rewrite E.
Qed.

Lemma climb_startswith base_url current_url next_url :
  climb base_url current_url = Some next_url →
  Py.startswith current_url next_url = true.
Proof.
  unfold climb. repeat case_match; try done. intros [= <-].
  eapply startswith_trans; [apply startswith_rstrip|apply startswith_take].
Qed.

Lemma climb_endswith base_url current_url next_url :
  climb base_url current_url = Some next_url →
  Py.endswith next_url "/" = true.
Proof.
  unfold climb. destruct (String.eqb _ _); [done|].
  destruct (Z.eqb_spec (Py.rfind (Py.rstrip current_url "/") "/") (-1)) as [|Hk]; [done|].
  destruct (_ <? _); [done|]. intros [= <-].
  apply endswith_take_rfind.
  pose proof (rfind_lower (Py.rstrip current_url "/") "/"). lia.
Qed.

Lemma levels_head base_url current_url :
  head (levels base_url current_url) = Some current_url.
Proof. funelim (levels base_url current_url); done. Qed.

Lemma levels_startswith base_url current_url :
  Forall (λ dir, Py.startswith current_url dir = true) (levels base_url current_url).
Proof.
  funelim (levels base_url current_url).
  - constructor; [apply startswith_refl|].
    eapply Forall_impl; [exact H|]. simpl. intros dir Hd.
    eapply startswith_trans; [|exact Hd]. by eapply climb_startswith.
  - constructor; [apply startswith_refl|constructor].
Qed.

Lemma levels_tail_endswith base_url current_url :
  Forall (λ dir, Py.endswith dir "/" = true) (tail (levels base_url current_url)).
Proof.
  funelim (levels base_url current_url); simpl; [|constructor].
  pose proof (levels_head base_url next_url) as Hh.
  destruct (levels base_url next_url) as [|d l] eqn:El; [done|].
  injection Hh as ->. constructor; [by eapply climb_endswith|exact H].
Qed.

Lemma length_append (s t : string) :
  String.length (s +:+ t) = (String.length s + String.length t)%nat.
Proof.
  induction s as [|a s IH]; [done|]. rewrite append_cons. simpl. by rewrite IH.
Qed.

Lemma full_url_length dir path :
  Py.len (full_url dir path)
  = Py.len dir + Py.len path + (if Py.endswith dir "/" then 0 else 1).
Proof.
  unfold full_url, Py.len.
  destruct (Py.endswith dir "/"); rewrite !length_append; simpl; lia.
Qed.

End ClimbFacts.

Section ClimbShape.

Lemma levels_urls_shorter base_url clean_path current_url :
  StronglySorted (λ u v, Py.len v < Py.len u)
    (map (λ dir, full_url dir clean_path) (levels base_url current_url)).
Proof.
  funelim (levels base_url current_url); [|repeat constructor].
  specialize (H clean_path). rewrite fmap_cons. constructor; [exact H|].
  pose proof (levels_head base_url next_url) as Hh.
  destruct (levels base_url next_url) as [|d l] eqn:El; [done|].
  injection Hh as ->. rewrite fmap_cons in H |- *.
  apply StronglySorted_inv in H as [_ Hl].
  assert (Py.len (full_url next_url clean_path)
          < Py.len (full_url current_url clean_path)) as Hstep.
  { rewrite !full_url_length, (climb_endswith _ _ _ e).
    pose proof (climb_decreases _ _ _ e). unfold Py.len.
    destruct (Py.endswith current_url "/"); lia. }
  constructor; [done|].
  eapply Forall_impl; [exact Hl|]. simpl. lia.
Qed.

Lemma shorter_NoDup (l : list string) :
  StronglySorted (λ u v, Py.len v < Py.len u) l → NoDup l.
Proof.
  induction 1 as [|u l _ IH Hu]; constructor; [|done].
  intros Hin. rewrite Forall_forall in Hu. specialize (Hu _ Hin). lia.
Qed.

(** X1.  The first URL is the join with the directory URL itself; every
    URL is the join of the cleaned candidate with a prefix of the
    directory URL; and from the second URL on that prefix ends with a
    slash, so the URL is the prefix followed by the cleaned candidate. *)
Theorem rebuild_paths_shape base_url js_dir_url relative_path :
  head (rebuild_paths base_url js_dir_url relative_path)
  = Some (full_url js_dir_url (clean_relative relative_path))
  ∧ Forall (λ url, ∃ dir,
                Py.startswith js_dir_url dir = true
                ∧ url = full_url dir (clean_relative relative_path))
           (rebuild_paths base_url js_dir_url relative_path)
  ∧ Forall (λ url, ∃ dir,
                Py.startswith js_dir_url dir = true
                ∧ Py.endswith dir "/" = true
                ∧ url = dir +:+ clean_relative relative_path)
           (tail (rebuild_paths base_url js_dir_url relative_path)).
Proof.
  rewrite rebuild_paths_levels.
  pose proof (levels_head base_url js_dir_url) as Hh.
  pose proof (levels_startswith base_url js_dir_url) as Hp.
  pose proof (levels_tail_endswith base_url js_dir_url) as He.
  destruct (levels base_url js_dir_url) as [|d l]; [done|].
  injection Hh as ->. split; [done|]. split.
  - apply Forall_fmap. eapply Forall_impl; [exact Hp|]. simpl. eauto.
  - simpl in *. apply Forall_cons in Hp as [_ Hp].
    rewrite Forall_forall in Hp, He.
    apply Forall_fmap, Forall_forall. intros dir Hin. simpl.
    exists dir. split_and!; [by apply Hp|by apply He|].
    unfold full_url. by rewrite He.
Qed.

(** X2.  The URLs returned get strictly shorter from one to the next, so
    no URL is returned twice. *)
Theorem rebuild_paths_strictly_shorter base_url js_dir_url relative_path :
  StronglySorted (λ u v, Py.len v < Py.len u)
    (rebuild_paths base_url js_dir_url relative_path)
  ∧ NoDup (rebuild_paths base_url js_dir_url relative_path).
Proof.
  rewrite rebuild_paths_levels.
  pose proof (levels_urls_shorter base_url (clean_relative relative_path)
                js_dir_url) as H.
  split; [exact H|by apply shorter_NoDup].
Qed.

(** X3.  When the directory URL, slash-trimmed, is shorter than the base
    URL, slash-trimmed, the climb does not start: the only URL returned
    is the join with the directory URL. *)
Theorem rebuild_paths_short_directory base_url js_dir_url relative_path :
  Py.len (Py.rstrip js_dir_url "/") < Py.len (Py.rstrip base_url "/") →
  rebuild_paths base_url js_dir_url relative_path
  = [full_url js_dir_url (clean_relative relative_path)].
Proof.
  intros Hlt. unfold rebuild_paths. rewrite rebuild_loop_break; [done|].
  unfold climb. destruct (String.eqb _ _); [done|].
  destruct (_ =? -1); [done|].
  destruct (Z.ltb_spec
              (Py.len (Py.rstrip (Py.slice_to (Py.rstrip js_dir_url "/")
                         (Py.rfind (Py.rstrip js_dir_url "/") "/" + 1)) "/"))
              (Py.len (Py.rstrip base_url "/"))) as [|Hge]; [done|].
  exfalso. revert Hge Hlt. unfold Py.len, Py.slice_to.
  set (n := Z.to_nat _). set (s := Py.rstrip js_dir_url "/").
  pose proof (rstrip_length (Py.take n s) "/").
  pose proof (take_length n s). lia.
Qed.

Lemma rebuild_paths_short_directory_witness :
  Py.len (Py.rstrip "https://a.com/" "/") < Py.len (Py.rstrip "https://example.com/" "/")
  ∧ rebuild_paths "https://example.com/" "https://a.com/" "./x.js"
    = ["https://a.com/x.js"].
Proof.
  split; [by vm_compute|].
  apply (rebuild_paths_short_directory "https://example.com/" "https://a.com/"
           "./x.js"). by vm_compute.
Defined.

End ClimbShape.

(** ** The climb through a chain of directories *)

Section NestedFacts.

Lemma rstrip_fixed s c : Py.endswith s c = false → Py.rstrip s c = s.
Proof.
  induction s as [|a s IH]; [done|]. destruct s as [|b s'].
  - simpl. by intros ->.
  - intros H. specialize (IH H). simpl in *. by rewrite IH.
Qed.

Lemma rstrip_append_char s c :
  Py.endswith s c = false → Py.rstrip (s +:+ String c "") c = s.
Proof.
  induction s as [|a s IH].
  - intros _. simpl. by rewrite Ascii.eqb_refl.
  - destruct s as [|b s'].
    + simpl. intros ->. by rewrite Ascii.eqb_refl.
    + intros H. specialize (IH H). rewrite append_cons.
      change (Py.rstrip (String a ?t) c)
        with (match Py.rstrip t c with
              | EmptyString => if Ascii.eqb a c then EmptyString else String a EmptyString
              | r => String a r
              end).
      by rewrite IH.
Qed.

(** Trimming trailing slashes never cuts into a prefix that does not end
    with one. *)
Lemma rstrip_keeps_prefix p t c :
  Py.endswith p c = false → ∃ t', Py.rstrip (p +:+ t) c = p +:+ t'.
Proof.
  induction p as [|a p IH]; [intros _; by exists (Py.rstrip t c)|].
  destruct p as [|b p'].
  - simpl. intros Ha. rewrite append_empty_l.
    destruct (Py.rstrip t c) as [|x r]; [rewrite Ha; by exists ""|].
    by exists (String x r).
  - intros H. destruct (IH H) as [t' Ht']. exists t'.
    rewrite !append_cons in *.
    change (Py.rstrip (String a ?u) c)
      with (match Py.rstrip u c with
            | EmptyString => if Ascii.eqb a c then EmptyString else String a EmptyString
            | r => String a r
            end).
    rewrite Ht'. done.
Qed.

Lemma rfind_absent s c : Py.contains s c = false → Py.rfind s c = -1.
Proof.
  induction s as [|a s IH]; [done|]. simpl.
  intros [Ha Hs]%orb_false_iff. by rewrite IH, Ha.
Qed.

Lemma rfind_app_absent s t c :
  Py.contains t c = false → Py.rfind (s +:+ t) c = Py.rfind s c.
Proof.
  intros Ht. induction s as [|a s IH].
  - rewrite append_empty_l. by apply rfind_absent.
  - rewrite append_cons. simpl. by rewrite IH.
Qed.

Lemma endswith_app_absent s t c :
  t ≠ "" → Py.contains t c = false → Py.endswith (s +:+ t) c = false.
Proof.
  intros Hne Ht.
  assert (Py.endswith t c = false) as Het.
  { clear Hne. induction t as [|a t IH]; [done|].
    simpl in Ht. apply orb_false_iff in Ht as [Ha Ht].
    destruct t; simpl; [done|]. by apply IH. }
  induction s as [|a s IH]; [done|].
  rewrite append_cons. destruct (s +:+ t) eqn:E; [|done].
  apply append_eq_empty in E as [_ ->]. done.
Qed.

Lemma endswith_app_char s c : Py.endswith (s +:+ String c "") c = true.
Proof.
  induction s as [|a s IH]; [simpl; by rewrite Ascii.eqb_refl|].
  rewrite append_cons. by apply endswith_cons.
Qed.

Lemma dirs_snoc segs seg : dirs (segs ++ [seg]) = dirs segs +:+ seg +:+ "/".
Proof.
  induction segs as [|s segs IH]; simpl; [by rewrite append_nil_r|].
  by rewrite IH, !append_assoc.
Qed.

Lemma nested_levels_snoc root segs seg :
  nested_levels root (segs ++ [seg])
  = nested_levels root segs ++ [root +:+ dirs (segs ++ [seg])].
Proof.
  revert root. induction segs as [|s segs IH]; intros root; simpl.
  - by rewrite append_nil_r.
  - rewrite IH. by rewrite !append_assoc.
Qed.

Lemma nested_levels_endswith root segs :
  Py.endswith root "/" = true →
  Forall (λ dir, Py.endswith dir "/" = true) (nested_levels root segs).
Proof.
  revert root. induction segs as [|s segs IH]; intros root Hr; simpl.
  - by constructor.
  - constructor; [done|]. apply IH.
    rewrite <- append_assoc. apply endswith_app_char.
Qed.

(** One step of the climb: from a directory one level below [dir] back to
    [dir], for a directory [dir] at or below the site root. *)
Lemma climb_one_level site rest seg :
  Py.endswith site "/" = false →
  seg ≠ "" → Py.contains seg "/" = false →
  Py.endswith (site +:+ "/" +:+ rest) "/" = true →
  climb (site +:+ "/") ((site +:+ "/" +:+ rest) +:+ seg +:+ "/")
  = Some (site +:+ "/" +:+ rest).
Proof.
  intros Hsite Hne Hseg Hdir. remember (site +:+ "/" +:+ rest) as dir eqn:Edir.
  assert (Py.rstrip (site +:+ "/") "/" = site) as Hbase.
  { by apply rstrip_append_char. }
  assert (Py.rstrip (dir +:+ seg +:+ "/") "/" = dir +:+ seg) as Hcur.
  { rewrite <- append_assoc. apply rstrip_append_char.
    by apply endswith_app_absent. }
  unfold climb. rewrite Hbase, Hcur.
  destruct (String.eqb_spec (dir +:+ seg) site) as [Heq|_].
  { exfalso. apply (f_equal String.length) in Heq. rewrite Edir in Heq.
    rewrite !length_append in Heq. simpl in Heq. lia. }
  rewrite (rfind_app_absent _ _ _ Hseg).
  assert (Py.rfind dir "/" + 1 = Py.len dir) as Hk.
  { rewrite (endswith_chop _ _ Hdir). rewrite rfind_append_char.
    unfold Py.len. rewrite length_append. simpl. lia. }
  assert (0 < Py.len dir) as Hpos.
  { rewrite Edir. unfold Py.len. rewrite !length_append. simpl. lia. }
  destruct (Z.eqb_spec (Py.rfind dir "/") (-1)) as [E|_]; [lia|].
  assert (Py.slice_to (dir +:+ seg) (Py.rfind dir "/" + 1) = dir) as ->.
  { unfold Py.slice_to. rewrite Hk. unfold Py.len. rewrite Nat2Z.id.
    apply take_append. }
  destruct (rstrip_keeps_prefix site ("/" +:+ rest) "/" Hsite) as [t' Ht'].
  rewrite <- Edir in Ht'. rewrite Ht'.
  destruct (Z.ltb_spec (Py.len (site +:+ t')) (Py.len site)) as [Hlt|_]; [|done].
  unfold Py.len in Hlt. rewrite length_append in Hlt. lia.
Qed.

Lemma endswith_dirs root segs :
  Py.endswith root "/" = true → Py.endswith (root +:+ dirs segs) "/" = true.
Proof.
  revert root. induction segs as [|s segs IH]; intros root Hr; simpl.
  - by rewrite append_nil_r.
  - rewrite <- !append_assoc. apply IH. apply endswith_app_char.
Qed.

Lemma levels_nested site segs :
  Py.endswith site "/" = false →
  Forall (λ seg, seg ≠ "" ∧ Py.contains seg "/" = false) segs →
  levels (site +:+ "/") (site +:+ "/" +:+ dirs segs)
  = reverse (nested_levels (site +:+ "/") segs).
Proof.
  intros Hsite. induction segs as [|seg segs IH] using rev_ind; intros Hsegs.
  - simpl. rewrite append_nil_r. apply levels_break.
    unfold climb. by rewrite String.eqb_refl.
  - apply Forall_app in Hsegs as [Hsegs [[Hne Hseg] _]%Forall_cons].
    assert (site +:+ "/" +:+ dirs (segs ++ [seg])
            = (site +:+ "/" +:+ dirs segs) +:+ seg +:+ "/") as Hshape.
    { rewrite dirs_snoc. by rewrite !append_assoc. }
    rewrite nested_levels_snoc, reverse_snoc, <- (IH Hsegs).
    rewrite append_assoc, Hshape.
    apply levels_again, climb_one_level; try done.
    rewrite <- append_assoc. apply endswith_dirs, endswith_app_char.
Qed.

Lemma rebuild_paths_chain site segs relative_path :
  Py.endswith site "/" = false →
  Forall (λ seg, seg ≠ "" ∧ Py.contains seg "/" = false) segs →
  rebuild_paths (site +:+ "/") (site +:+ "/" +:+ dirs segs) relative_path
  = map (λ dir, dir +:+ clean_relative relative_path)
        (reverse (nested_levels (site +:+ "/") segs)).
Proof.
  intros Hsite Hsegs. rewrite rebuild_paths_levels, (levels_nested _ _ Hsite Hsegs).
  apply Forall_fmap_ext_1, Forall_reverse.
  eapply Forall_impl; [apply nested_levels_endswith, endswith_app_char|].
  simpl. intros dir Hd. unfold full_url. by rewrite Hd.
Qed.

(** X4.  For a base URL [site/] and a directory URL that lies a chain of
    directories below it, [rebuild_paths] returns one URL per level of the
    chain, from the directory itself up to the base URL, each the level
    followed by the cleaned candidate. *)
Theorem rebuild_paths_nested site segs relative_path :
  Py.endswith site "/" = false →
  Forall (λ seg, seg ≠ "" ∧ Py.contains seg "/" = false) segs →
  rebuild_paths (site +:+ "/") (site +:+ "/" +:+ dirs segs) relative_path
  = map (λ dir, dir +:+ clean_relative relative_path)
        (reverse (nested_levels (site +:+ "/") segs)).
Proof. apply rebuild_paths_chain. Qed.

Lemma rebuild_paths_nested_witness :
  Py.endswith "https://example.com" "/" = false
  ∧ Forall (λ seg, seg ≠ "" ∧ Py.contains seg "/" = false) ["app"; "js"]
  ∧ rebuild_paths "https://example.com/" "https://example.com/app/js/" "./x.json"
    = [ "https://example.com/app/js/x.json";
        "https://example.com/app/x.json";
        "https://example.com/x.json" ].
Proof.
  assert (Forall (λ seg, seg ≠ "" ∧ Py.contains seg "/" = false) ["app"; "js"])
    as Hsegs.
  { repeat constructor; done. }
  split; [reflexivity|]. split; [exact Hsegs|].
  apply (rebuild_paths_nested "https://example.com" ["app"; "js"] "./x.json");
    [reflexivity|exact Hsegs].
Defined.

End NestedFacts.

(** ** The origin of a file path, in general *)

Section OriginShape.

Lemma split_cons_inv s c :
  ∃ h t, Py.split s c = h :: t.
Proof.
  induction s as [|a s (h & t & IH)]; simpl; [eauto|].
  destruct (Ascii.eqb a c); [eauto|]. rewrite IH. eauto.
Qed.

(** No part of a split contains the separator. *)
Lemma split_no_sep s c : Forall (λ p, Py.contains p c = false) (Py.split s c).
Proof.
  induction s as [|a s IH]; simpl; [by repeat constructor|].
  destruct (Ascii.eqb a c) eqn:E; [by constructor|].
  destruct (Py.split s c) as [|h t]; [by repeat constructor; simpl; rewrite E|].
  apply Forall_cons in IH as [Hh Ht]. constructor; [|done].
  simpl. by rewrite E.
Qed.

(** A character that is not in a text is in none of its parts. *)
Lemma split_absent s c d :
  Py.contains s d = false → Forall (λ p, Py.contains p d = false) (Py.split s c).
Proof.
  induction s as [|a s IH]; simpl; [by repeat constructor|].
  intros [Ha Hs]%orb_false_iff. specialize (IH Hs).
  destruct (Ascii.eqb a c); [by constructor|].
  destruct (Py.split s c) as [|h t]; [by repeat constructor; simpl; rewrite Ha|].
  apply Forall_cons in IH as [Hh Ht]. constructor; [|done].
  simpl. by rewrite Ha.
Qed.

Lemma replace_char_absent s a b d :
  Py.contains s d = false → Ascii.eqb b d = false →
  Py.contains (Py.replace s a (String b "")) d = false.
Proof.
  intros Hs Hb. induction s as [|x s IH]; [done|]. simpl in *.
  apply orb_false_iff in Hs as [Hx Hs]. specialize (IH Hs).
  destruct (Ascii.eqb x a).
  - rewrite append_cons, append_empty_l. simpl. by rewrite Hb.
  - simpl. by rewrite Hx.
Qed.

Lemma replace_char_twice s a b :
  Ascii.eqb b a = false →
  Py.replace (Py.replace s a (String b "")) a (String b "")
  = Py.replace s a (String b "").
Proof.
  intros Hb. induction s as [|x s IH]; [done|]. simpl.
  destruct (Ascii.eqb x a) eqn:E.
  - rewrite append_cons, append_empty_l. simpl. by rewrite Hb, IH.
  - simpl. by rewrite E, IH.
Qed.

Lemma join_snoc init last :
  Py.join "/" (init ++ [last]) = dirs init +:+ last.
Proof.
  induction init as [|p init IH]; [done|].
  change (dirs (p :: init)) with (p +:+ "/" +:+ dirs init).
  rewrite !append_assoc, <- IH. simpl.
  by destruct (init ++ [last]) eqn:E; [destruct init; discriminate|].
Qed.

Lemma rsplit1_head_dir dir last :
  Py.endswith dir "/" = true → Py.contains last "/" = false →
  Py.rsplit1_head (dir +:+ last) "/" +:+ "/" = dir.
Proof.
  intros Hd Hl. unfold Py.rsplit1_head.
  rewrite (rfind_app_absent _ _ _ Hl).
  assert (Py.rfind dir "/" = Py.len (Re.chop dir)) as Hk.
  { rewrite (endswith_chop _ _ Hd) at 1. apply rfind_append_char. }
  rewrite Hk.
  destruct (Z.eqb_spec (Py.len (Re.chop dir)) (-1)) as [E|_];
    [unfold Py.len in E; lia|].
  unfold Py.slice_to, Py.len. rewrite Nat2Z.id.
  pose proof (endswith_chop _ _ Hd) as Hshape.
  remember (Re.chop dir) as z eqn:Hz. clear Hz Hk Hd. subst dir.
  by rewrite append_assoc, take_append.
Qed.

Lemma find_domain_first pre domain post :
  Forall (λ part, looks_like_domain part = false) pre →
  looks_like_domain domain = true →
  find_domain (pre ++ domain :: post)
  = (Some domain, match post with [] => "" | _ => Py.join "/" post end).
Proof.
  intros Hpre Hd. induction Hpre as [|p pre Hp _ IH]; simpl.
  - by rewrite Hd.
  - by rewrite Hp.
Qed.

Lemma find_domain_inv parts :
  match find_domain parts with
  | (Some domain, _) =>
      ∃ pre post, parts = pre ++ domain :: post
                  ∧ Forall (λ part, looks_like_domain part = false) pre
                  ∧ looks_like_domain domain = true
  | (None, _) => Forall (λ part, looks_like_domain part = false) parts
  end.
Proof.
  induction parts as [|p parts IH]; simpl; [constructor|].
  destruct (looks_like_domain p) eqn:Hp.
  - exists [], parts. by repeat split.
  - destruct (find_domain parts) as [[domain|] rel].
    + destruct IH as (pre & post & -> & Hpre & Hd).
      exists (p :: pre), post. split; [done|]. split; [by constructor|done].
    + by constructor.
Qed.

Lemma looks_like_domain_nonempty part :
  looks_like_domain part = true → truthy (Some part) = true.
Proof. by destruct part. Qed.

Lemma origin_of_parts js_file_path pre domain post :
  Py.split (Py.replace js_file_path "\" "/") "/" = pre ++ domain :: post →
  Forall (λ part, looks_like_domain part = false) pre →
  looks_like_domain domain = true →
  extract_base_url_from_path js_file_path
  = (Some ("https://" +:+ domain +:+ "/"),
     Some (("https://" +:+ domain +:+ "/") +:+ dirs (removelast post))).
Proof.
  intros Hparts Hpre Hd.
  pose proof (split_no_sep (Py.replace js_file_path "\" "/") "/") as Hsep.
  rewrite Hparts in Hsep. apply Forall_app in Hsep as [_ [_ Hpost]%Forall_cons].
  unfold extract_base_url_from_path.
  rewrite Hparts, (find_domain_first _ _ _ Hpre Hd).
  rewrite (looks_like_domain_nonempty _ Hd).
  assert (Py.endswith ("https://" +:+ domain +:+ "/") "/" = true) as Hbase.
  { rewrite <- append_assoc. apply endswith_app_char. }
  do 2 f_equal.
  destruct post as [|last post _] using rev_ind.
  - simpl. rewrite !append_nil_r.
    rewrite <- (append_assoc "https://" domain "/").
    by rewrite rsplit1_head_append_char.
  - rewrite removelast_last.
    assert (match post ++ [last] with [] => "" | _ => Py.join "/" (post ++ [last]) end
            = dirs post +:+ last) as ->.
    { rewrite <- join_snoc. by destruct post. }
    apply Forall_app in Hpost as [_ [Hlast _]%Forall_cons].
    replace ("https://" +:+ domain +:+ "/" +:+ dirs post +:+ last)
      with ((("https://" +:+ domain +:+ "/") +:+ dirs post) +:+ last)
      by (by rewrite !append_assoc).
    apply rsplit1_head_dir; [|done]. by apply endswith_dirs.
Qed.

End OriginShape.

Section OriginShapeTheorems.

(** X5.  The parts of the path before the first one that looks like a
    domain are ignored; the base URL is [https://], that part and [/];
    the directory URL is the base URL followed by the parts after the
    domain, each closed by a slash, without the last part (the file
    name). *)
Theorem origin_of_path js_file_path pre domain post :
  Py.split (Py.replace js_file_path "\" "/") "/" = pre ++ domain :: post →
  Forall (λ part, looks_like_domain part = false) pre →
  looks_like_domain domain = true →
  extract_base_url_from_path js_file_path
  = (Some ("https://" +:+ domain +:+ "/"),
     Some (("https://" +:+ domain +:+ "/") +:+ dirs (removelast post))).
Proof. apply origin_of_parts. Qed.

Lemma origin_of_path_witness :
  Py.split (Py.replace "C:\dl\js_files\cdn.example.org\static\v2\app.min.js" "\" "/") "/"
  = ["C:"; "dl"; "js_files"] ++ "cdn.example.org" :: ["static"; "v2"; "app.min.js"]
  ∧ Forall (λ part, looks_like_domain part = false) ["C:"; "dl"; "js_files"]
  ∧ looks_like_domain "cdn.example.org" = true
  ∧ extract_base_url_from_path "C:\dl\js_files\cdn.example.org\static\v2\app.min.js"
    = (Some "https://cdn.example.org/", Some "https://cdn.example.org/static/v2/").
Proof.
  assert (Forall (λ part, looks_like_domain part = false) ["C:"; "dl"; "js_files"])
    as Hpre.
  { repeat constructor. }
  split; [by vm_compute|]. split; [exact Hpre|]. split; [by vm_compute|].
  apply (origin_of_path "C:\dl\js_files\cdn.example.org\static\v2\app.min.js"
           ["C:"; "dl"; "js_files"] "cdn.example.org"
           ["static"; "v2"; "app.min.js"]);
    [by vm_compute|exact Hpre|by vm_compute].
Defined.

(** X6.  No origin is found exactly when no part of the path looks like
    a domain; then both results are [None].  A path without a dot is such
    a path. *)
Theorem no_origin_iff js_file_path :
  (extract_base_url_from_path js_file_path = (None, None)
   ↔ Forall (λ part, looks_like_domain part = false)
            (Py.split (Py.replace js_file_path "\" "/") "/"))
  ∧ (Py.contains js_file_path "." = false →
     extract_base_url_from_path js_file_path = (None, None)).
Proof.
  assert (extract_base_url_from_path js_file_path = (None, None)
          ↔ Forall (λ part, looks_like_domain part = false)
                   (Py.split (Py.replace js_file_path "\" "/") "/")) as Hiff.
  { unfold extract_base_url_from_path.
    pose proof (find_domain_inv (Py.split (Py.replace js_file_path "\" "/") "/"))
      as Hinv.
    destruct (find_domain _) as [[domain|] rel].
    - destruct Hinv as (pre & post & Hparts & Hpre & Hd).
      rewrite (looks_like_domain_nonempty _ Hd). split; [done|].
      rewrite Hparts. intros [_ [Hno _]%Forall_cons]%Forall_app. congruence.
    - done. }
  split; [exact Hiff|]. intros Hdot. apply Hiff.
  eapply Forall_impl.
  - apply (split_absent _ "/" "."). by apply replace_char_absent.
  - simpl. intros part Hp. unfold looks_like_domain. by rewrite Hp.
Qed.

Lemma no_origin_iff_witness :
  Py.contains "out/js/bundle" "." = false
  ∧ extract_base_url_from_path "out/js/bundle" = (None, None).
Proof.
  split; [reflexivity|].
  apply (no_origin_iff "out/js/bundle"). reflexivity.
Defined.

Lemma origin_facts js_file_path base_url js_dir_url :
  extract_base_url_from_path js_file_path = (Some base_url, Some js_dir_url) →
  (∃ domain,
      domain ∈ Py.split (Py.replace js_file_path "\" "/") "/"
      ∧ looks_like_domain domain = true
      ∧ base_url = "https://" +:+ domain +:+ "/"
      ∧ Py.rstrip base_url "/" = "https://" +:+ domain)
  ∧ Py.startswith js_dir_url base_url = true
  ∧ Py.endswith js_dir_url "/" = true
  ∧ Py.len (Py.rstrip base_url "/") <= Py.len (Py.rstrip js_dir_url "/").
Proof.
  intros Hres.
  pose proof (find_domain_inv (Py.split (Py.replace js_file_path "\" "/") "/"))
    as Hinv.
  destruct (find_domain _) as [[domain|] rel] eqn:Hfind.
  2:{ unfold extract_base_url_from_path in Hres. by rewrite Hfind in Hres. }
  destruct Hinv as (pre & post & Hparts & Hpre & Hd).
  rewrite (origin_of_parts _ _ _ _ Hparts Hpre Hd) in Hres.
  injection Hres as <- <-.
  assert (Py.contains domain "/" = false) as Hslash.
  { pose proof (split_no_sep (Py.replace js_file_path "\" "/") "/") as Hsep.
    rewrite Hparts in Hsep. by apply Forall_app in Hsep as [_ [? _]%Forall_cons]. }
  assert (Py.endswith ("https://" +:+ domain) "/" = false) as Hsite.
  { apply endswith_app_absent; [|done].
    apply looks_like_domain_nonempty in Hd. by destruct domain. }
  assert (Py.rstrip ("https://" +:+ domain +:+ "/") "/" = "https://" +:+ domain)
    as Hbase.
  { rewrite <- append_assoc. by apply rstrip_append_char. }
  split; [|split; [|split]].
  - exists domain. split_and!; try done.
    rewrite Hparts. apply elem_of_app. right. apply elem_of_cons. by left.
  - apply startswith_app.
  - apply endswith_dirs. rewrite <- append_assoc. apply endswith_app_char.
  - rewrite Hbase.
    destruct (rstrip_keeps_prefix ("https://" +:+ domain)
                ("/" +:+ dirs (removelast post)) "/" Hsite) as [t' Ht'].
    rewrite !append_assoc in Ht'. rewrite !append_assoc, Ht'.
    unfold Py.len. rewrite !length_append. lia.
Qed.

(** X7.  When an origin is found, the base URL is [https://], a part of
    the path that looks like a domain, and [/]; the directory URL starts
    with the base URL and ends with a slash; and, slash-trimmed, it is at
    least as long as the base URL, slash-trimmed. *)
Theorem origin_invariants js_file_path base_url js_dir_url :
  extract_base_url_from_path js_file_path = (Some base_url, Some js_dir_url) →
  (∃ domain,
      domain ∈ Py.split (Py.replace js_file_path "\" "/") "/"
      ∧ looks_like_domain domain = true
      ∧ base_url = "https://" +:+ domain +:+ "/"
      ∧ Py.rstrip base_url "/" = "https://" +:+ domain)
  ∧ Py.startswith js_dir_url base_url = true
  ∧ Py.endswith js_dir_url "/" = true
  ∧ Py.len (Py.rstrip base_url "/") <= Py.len (Py.rstrip js_dir_url "/").
Proof. apply origin_facts. Qed.

Lemma origin_invariants_witness :
  extract_base_url_from_path "out/site.example/app/js/bundle.js"
  = (Some "https://site.example/", Some "https://site.example/app/js/")
  ∧ Py.startswith "https://site.example/app/js/" "https://site.example/" = true.
Proof.
  split; [by vm_compute|].
  apply (origin_invariants "out/site.example/app/js/bundle.js"
           "https://site.example/" "https://site.example/app/js/").
  by vm_compute.
Defined.

(** X8.  Backslashes and slashes separate the parts of a path alike: a
    path and the same path with every backslash written as a slash have
    the same origin. *)
Theorem origin_separator_insensitive js_file_path :
  extract_base_url_from_path (Py.replace js_file_path "\" "/")
  = extract_base_url_from_path js_file_path.
Proof.
  unfold extract_base_url_from_path. by rewrite replace_char_twice.
Qed.

End OriginShapeTheorems.

(** ** More on the candidate filter *)

Section FilterShape.

Lemma elem_of_candidate_filter x raw :
  x ∈ candidate_filter raw ↔ x ∈ raw ∧ rejected x = false.
Proof.
  rewrite candidate_filter_first_seen, elem_of_first_seen, elem_of_candidates.
  rewrite list_elem_of_fmap. split.
  - intros [[(y & [= ->] & Hy) Hr] _]. done.
  - intros [Hx Hr]. split; [eauto|apply not_elem_of_empty].
Qed.

(** A text matched by an anchored pattern starts with a character with
    which some word of the pattern starts. *)
Lemma match_anchored_first (p : ascii → bool) r s :
  (∀ t, denotes r t → ∃ a t', t = String a t' ∧ p a = true) →
  Re.match_anchored r s = true →
  ∃ a s', s = String a s' ∧ p a = true.
Proof.
  intros Hr [H|(t & -> & H)]%match_anchored_denotes; [by apply Hr|].
  destruct (Hr _ H) as (a & t' & -> & Ha). exists a, (t' +:+ nl). by rewrite append_cons.
Qed.

Lemma class_first (p : ascii → bool) t :
  denotes (Re.Class p) t → ∃ a t', t = String a t' ∧ p a = true.
Proof. intros (a & Ha & ->). eauto. Qed.

Lemma cat_class_first (p : ascii → bool) r t :
  denotes (Re.Cat (Re.Class p) r) t → ∃ a t', t = String a t' ∧ p a = true.
Proof. intros (s1 & s2 & -> & (a & Ha & ->) & _). eauto. Qed.

Lemma mime_first t :
  denotes mime_re t → ∃ a t', t = String a t' ∧ Re.letter a = true.
Proof.
  intros (s1 & s2 & -> & (a & s1' & -> & Ha)%cat_class_first & _).
  rewrite append_cons. eauto.
Qed.

Lemma letter_word a : Re.letter a = true → Re.word a = true.
Proof. unfold Re.word. by intros ->. Qed.

Lemma digit_word a : Re.digit a = true → Re.word a = true.
Proof. unfold Re.word. intros ->. by rewrite orb_true_r. Qed.

(** A text whose first character is not a word character passes every
    rejection rule. *)
Lemma not_word_start_accepted a s :
  Re.word a = false → rejected (String a s) = false.
Proof.
  intros Ha. unfold rejected. simpl negb. rewrite orb_false_l.
  apply orb_false_iff. split.
  - destruct (is_mime_type (String a s)) eqn:E; [|done].
    apply (match_anchored_first Re.letter) in E as (b & s' & [= <- <-] & Hb);
      [|apply mime_first].
    apply letter_word in Hb. congruence.
  - unfold should_skip, skip_patterns. simpl existsb.
    rewrite orb_false_r.
    repeat match goal with
    | |- _ || _ = false => apply orb_false_iff; split
    end.
    + destruct (Re.match_anchored _ _) eqn:E; [|done].
      apply (match_anchored_first Re.letter) in E as (b & s' & [= <- <-] & Hb);
        [|apply class_first].
      apply letter_word in Hb. congruence.
    + destruct (Re.match_anchored _ _) eqn:E; [|done].
      apply (match_anchored_first Re.digit) in E as (b & s' & [= <- <-] & Hb);
        [|apply cat_class_first].
      apply digit_word in Hb. congruence.
    + destruct (_ <? 3); [|done].
      destruct (Re.match_anchored _ _) eqn:E; [|done].
      apply (match_anchored_first Re.word) in E as (b & s' & [= <- <-] & Hb);
        [|apply cat_class_first].
      congruence.
Qed.

Lemma first_seen_app seen l1 l2 :
  first_seen seen (l1 ++ l2)
  = first_seen seen l1 ++ first_seen (seen ∪ list_to_set l1) l2.
Proof.
  revert seen. induction l1 as [|x l1 IH]; intros s; simpl.
  - by rewrite union_empty_r_L.
  - destruct (decide (x ∈ s)) as [Hx|Hx]; rewrite IH.
    + do 2 f_equal. apply set_eq. intros y.
      rewrite !elem_of_union, elem_of_singleton. intuition (subst; tauto).
    + simpl. do 3 f_equal. apply set_eq. intros y.
      rewrite !elem_of_union, elem_of_singleton. tauto.
Qed.

Lemma first_seen_filter (s t : gset string) l :
  first_seen (s ∪ t) l = filter (λ x, x ∉ s) (first_seen t l).
Proof.
  revert t. induction l as [|x l IH]; intros t; simpl; [done|].
  destruct (decide (x ∈ t)) as [Ht|Ht].
  - rewrite decide_True by (apply elem_of_union; auto). apply IH.
  - destruct (decide (x ∈ s)) as [Hs|Hs].
    + rewrite decide_True by (apply elem_of_union; auto).
      rewrite filter_cons_False by auto. rewrite <- IH. f_equal.
      apply set_eq. intros y.
      rewrite !elem_of_union, elem_of_singleton. intuition (subst; tauto).
    + rewrite decide_False by (rewrite elem_of_union; tauto).
      rewrite filter_cons_True by done. rewrite <- IH. do 2 f_equal.
      apply set_eq. intros y. rewrite !elem_of_union. tauto.
Qed.

End FilterShape.

Section FilterShapeTheorems.

(** X9.  A text that starts with a dot or a slash is never rejected: a
    relative or absolute path among the raw candidates is always among
    the filtered ones. *)
Theorem path_candidates_survive raw path :
  Py.startswith path "." = true ∨ Py.startswith path "/" = true →
  path ∈ raw →
  rejected path = false ∧ path ∈ candidate_filter raw.
Proof.
  intros Hstart Hin.
  assert (rejected path = false) as Hr.
  { destruct path as [|a s]; [by destruct Hstart|].
    apply not_word_start_accepted.
    destruct Hstart as [H|H]; simpl in H;
      apply andb_true_iff in H as [->%Ascii.eqb_eq _]; reflexivity. }
  split; [done|]. by apply elem_of_candidate_filter.
Qed.

Lemma path_candidates_survive_witness :
  (Py.startswith "../x" "." = true ∨ Py.startswith "../x" "/" = true)
  ∧ "../x" ∈ ["a"; "../x"]
  ∧ "../x" ∈ candidate_filter ["a"; "../x"].
Proof.
  assert ("../x" ∈ ["a"; "../x"]) as Hin.
  { apply elem_of_cons. right. apply elem_of_cons. by left. }
  split; [by left|]. split; [exact Hin|].
  apply (path_candidates_survive ["a"; "../x"] "../x"); [by left|exact Hin].
Defined.

(** X10.  Filtering two sequences of candidates one after the other:
    the result for the first sequence comes first, unchanged, followed by
    the result for the second sequence without the texts already there. *)
Theorem candidate_filter_app raw1 raw2 :
  candidate_filter (raw1 ++ raw2)
  = candidate_filter raw1
    ++ filter (λ x, x ∉ candidate_filter raw1) (candidate_filter raw2).
Proof.
  rewrite !candidate_filter_first_seen, fmap_app, omap_app, first_seen_app.
  f_equal. rewrite union_empty_l_L.
  rewrite <- (union_empty_r_L (list_to_set _)), first_seen_filter.
  apply list_filter_iff. intros x.
  rewrite elem_of_list_to_set, elem_of_first_seen.
  split; [tauto|]. intros H Hx. apply H. split; [done|apply not_elem_of_empty].
Qed.

End FilterShapeTheorems.

(** ** The cheap normalisation of very large texts *)

(** A text of 1,000,001 semicolons, to exercise the large-text branch. *)
Definition million_semicolons : string :=
  Nat.iter (Z.to_nat 1000001) (String ";") "".

Section LargeText.

Lemma replace_insert_newline s c :
  Ascii.eqb c Re.newline = false →
  Py.replace (Py.replace s c (String c nl)) Re.newline ""
  = Py.replace s Re.newline "".
Proof.
  intros Hc. induction s as [|a s IH]; [done|]. simpl.
  destruct (Ascii.eqb a c) eqn:E.
  - apply Ascii.eqb_eq in E as ->. rewrite Hc.
    unfold nl. rewrite !append_cons, append_empty_l. simpl.
    rewrite Hc, append_empty_l. fold nl. by rewrite IH.
  - simpl. destruct (Ascii.eqb a Re.newline); by rewrite IH.
Qed.

(** X11.  For a text of more than 1,000,000 characters the beautifier is
    not called: the text searched is the text itself with newlines
    inserted, that is, with all newlines deleted it is the text with all
    newlines deleted. *)
Theorem beautified_large_only_adds_newlines `{L : Libraries} content :
  1000000 < Py.len content →
  Py.replace (beautified content) Re.newline ""
  = Py.replace content Re.newline "".
Proof.
  intros Hlen. unfold beautified.
  destruct (Z.ltb_spec 1000000 (Py.len content)) as [_|?]; [|lia].
  change ("," +:+ nl) with (String "," nl).
  change (";" +:+ nl) with (String ";" nl).
  by rewrite !replace_insert_newline.
Qed.

Lemma beautified_large_only_adds_newlines_witness :
  1000000 < Py.len million_semicolons
  ∧ Py.replace (@beautified LiteralRe.lib million_semicolons) Re.newline ""
    = Py.replace million_semicolons Re.newline "".
Proof.
  assert (1000000 < Py.len million_semicolons) as Hlen by (by vm_compute).
  split; [exact Hlen|].
  exact (@beautified_large_only_adds_newlines LiteralRe.lib million_semicolons Hlen).
Defined.

End LargeText.

(** ** What [write_path_rebuild_file] writes *)

Section RebuildFileFacts.



Lemma rebuild_paths_nonempty base_url js_dir_url relative_path :
  rebuild_paths base_url js_dir_url relative_path ≠ [].
Proof.
  rewrite rebuild_paths_levels. intros H%(f_equal length).
  rewrite length_fmap in H. pose proof (levels_length base_url js_dir_url).
  simpl in H. lia.
Qed.

(** The two results of [extract_base_url_from_path] come together, and a
    base URL that is found is not empty. *)
Lemma origin_cases js_file_path :
  extract_base_url_from_path js_file_path = (None, None)
  ∨ ∃ base_url js_dir_url,
      extract_base_url_from_path js_file_path = (Some base_url, Some js_dir_url)
      ∧ truthy (Some base_url) = true.
Proof.
  unfold extract_base_url_from_path.
  pose proof (find_domain_inv (Py.split (Py.replace js_file_path "\" "/") "/"))
    as Hinv.
  destruct (find_domain _) as [[domain|] rel]; [|by left].
  destruct Hinv as (pre & post & _ & _ & Hd).
  rewrite (looks_like_domain_nonempty _ Hd). right. eauto.
Qed.


Lemma elem_of_flat_map {A B : Type} (f : A → list B) (l : list A) (y : B) :
  y ∈ flat_map f l ↔ ∃ x, x ∈ l ∧ y ∈ f x.
Proof.
  rewrite list_elem_of_In, in_flat_map. split.
  - intros (x & Hx & Hy). exists x. by rewrite !list_elem_of_In.
  - intros (x & Hx & Hy). exists x. by rewrite <- !list_elem_of_In.
Qed.

Lemma flat_map_nil_iff {A B : Type} (f : A → list B) (l : list A) :
  flat_map f l = [] ↔ Forall (λ x, f x = []) l.
Proof.
  induction l as [|x l IH]; simpl; [split; [constructor|done]|].
  rewrite Forall_cons, <- IH. split.
  - by intros [? ?]%app_eq_nil.
  - by intros [-> ->].
Qed.

Lemma rebuild_entry_nil base_url js_dir_url path :
  rebuild_entry base_url js_dir_url path = [] ↔ Py.startswith path "." = false.
Proof.
  unfold rebuild_entry. destruct (Py.startswith path "."); [|done].
  split; [|done]. intros H. by apply rebuild_paths_nonempty in H.
Qed.

End RebuildFileFacts.

Section RebuildFileTheorems.




(** X13.  The rebuild file is empty exactly when no file of the results
    has both an origin and a candidate that starts with a dot: files
    without an origin and candidates such as [/api/health] or
    [config.json] add nothing. *)
Theorem rebuild_file_empty_iff results :
  write_path_rebuild_file results = []
  ↔ Forall (λ '(js_file, paths),
              extract_base_url_from_path js_file = (None, None)
              ∨ Forall (λ path, Py.startswith path "." = false) paths)
           results.
Proof.
  unfold write_path_rebuild_file. rewrite flat_map_nil_iff.
  apply Forall_iff. intros [js_file paths].
  destruct (origin_cases js_file) as [Hno|(b & d & Horigin & Htruthy)].
  - rewrite Hno. split; [by left|done].
  - rewrite Horigin, Htruthy, flat_map_nil_iff.
    setoid_rewrite rebuild_entry_nil. split; [by right|].
    by intros [?|?].
Qed.



End RebuildFileTheorems.

(** ** [find_js_files] *)

(** One item of [os.walk(directory)]: [(root, dirs, files)]. *)
Definition walk_item : Type := string * list string * list string.

(** [os.path.join(a, b)], as [posixpath] defines it. *)
Definition os_path_join (a b : string) : string :=
  if Py.startswith b "/" then b
  else if String.eqb a "" || Py.endswith a "/" then a +:+ b
  else a +:+ "/" +:+ b.

(** [s.endswith(suffix)] for a suffix of any length: some tail of [s] is
    [suffix]. *)
Fixpoint endswith_str (s suffix : string) : bool :=
  String.eqb s suffix
  || match s with
     | EmptyString => false
     | String _ s' => endswith_str s' suffix
     end.

(** [a <= b] on [str]: the order of the code points, a prefix first. *)
Fixpoint str_le (a b : string) : bool :=
  match a, b with
  | EmptyString, _ => true
  | String _ _, EmptyString => false
  | String x a', String y b' =>
      if (N_of_ascii x <? N_of_ascii y)%N then true
      else if Ascii.eqb x y then str_le a' b'
      else false
  end.

Definition str_le_prop (a b : string) : Prop := str_le a b = true.

#[export] Instance str_le_prop_dec : RelDecision str_le_prop :=
  λ a b, decide (str_le a b = true).

(** [sorted(l)] on a list of [str]: the sorted list is the same whatever
    the sorting algorithm, the order being total and antisymmetric. *)
Definition sorted (l : list string) : list string := merge_sort str_le_prop l.

(** [find_js_files], given the items [os.walk(directory)] yields. *)
Definition find_js_files (walk : list walk_item) : list string :=
  let js_files :=
    flat_map
      (λ '(root, _, files),
        map (os_path_join root)
            (filter (λ file, endswith_str file ".js" = true) files))
      walk in
  sorted js_files.

Section FindFacts.

#[export] Instance str_le_total : Total str_le_prop.
Proof.
  unfold str_le_prop. intros a. induction a as [|x a IH]; intros [|y b]; simpl; auto.
  destruct (N.ltb_spec (N_of_ascii x) (N_of_ascii y)); [auto|].
  destruct (N.ltb_spec (N_of_ascii y) (N_of_ascii x)); [auto|].
  assert (x = y) as ->.
  { rewrite <- (ascii_N_embedding x), <- (ascii_N_embedding y). f_equal. lia. }
  rewrite Ascii.eqb_refl. apply IH.
Qed.

#[export] Instance str_le_trans : Transitive str_le_prop.
Proof.
  unfold str_le_prop. intros a.
  induction a as [|x a IH]; intros [|y b] [|z c]; simpl; try done.
  destruct (N.ltb_spec (N_of_ascii x) (N_of_ascii y)) as [Hxy|Hxy].
  - intros _. destruct (N.ltb_spec (N_of_ascii y) (N_of_ascii z)) as [Hyz|Hyz].
    + intros _. destruct (N.ltb_spec (N_of_ascii x) (N_of_ascii z)); [done|lia].
    + destruct (Ascii.eqb_spec y z) as [->|]; [|done]. intros _.
      by destruct (N.ltb_spec (N_of_ascii x) (N_of_ascii z)); [|lia].
  - destruct (Ascii.eqb_spec x y) as [->|]; [|done]. intros Hab.
    destruct (N.ltb_spec (N_of_ascii y) (N_of_ascii z)); [done|].
    destruct (Ascii.eqb_spec y z) as [->|]; [|done]. by apply IH.
Qed.

#[export] Instance str_le_antisymm : AntiSymm (=) str_le_prop.
Proof.
  unfold str_le_prop. intros a.
  induction a as [|x a IH]; intros [|y b]; simpl; try done.
  destruct (N.ltb_spec (N_of_ascii x) (N_of_ascii y)) as [Hxy|Hxy].
  - intros _. destruct (N.ltb_spec (N_of_ascii y) (N_of_ascii x)); [lia|].
    destruct (Ascii.eqb_spec y x) as [->|]; [lia|done].
  - destruct (Ascii.eqb_spec x y) as [->|]; [|done]. intros Hab.
    destruct (N.ltb_spec (N_of_ascii y) (N_of_ascii y)); [lia|].
    rewrite Ascii.eqb_refl. intros Hba. f_equal. by apply IH.
Qed.

Lemma endswith_str_app s t suffix :
  endswith_str t suffix = true → endswith_str (s +:+ t) suffix = true.
Proof.
  intros Ht. induction s as [|a s IH]; [done|].
  rewrite append_cons. simpl. rewrite IH. apply orb_true_r.
Qed.

Lemma os_path_join_endswith a b suffix :
  endswith_str b suffix = true → endswith_str (os_path_join a b) suffix = true.
Proof.
  intros Hb. unfold os_path_join. repeat case_match; try done.
  - by apply endswith_str_app.
  - by apply endswith_str_app, endswith_str_app.
Qed.

Lemma elem_of_js_files (walk : list walk_item) path :
  path ∈ flat_map
           (λ '(root, _, files),
             map (os_path_join root)
                 (filter (λ file, endswith_str file ".js" = true) files))
           walk
  ↔ ∃ root subdirs files file,
      (root, subdirs, files) ∈ walk ∧ file ∈ files
      ∧ endswith_str file ".js" = true ∧ path = os_path_join root file.
Proof.
  rewrite elem_of_flat_map. split.
  - intros ([[root subdirs] files] & Hin & Hp).
    apply list_elem_of_fmap in Hp as (file & -> & Hf).
    apply list_elem_of_filter in Hf as [Hjs Hf]. eauto 10.
  - intros (root & subdirs & files & file & Hin & Hf & Hjs & ->).
    exists (root, subdirs, files). split; [done|].
    apply list_elem_of_fmap. exists file. split; [done|].
    by apply list_elem_of_filter.
Qed.

Lemma js_files_walk_perm (walk1 walk2 : list walk_item) :
  walk1 ≡ₚ walk2 →
  flat_map
    (λ '(root, _, files),
      map (os_path_join root)
          (filter (λ file, endswith_str file ".js" = true) files)) walk1
  ≡ₚ flat_map
       (λ '(root, _, files),
         map (os_path_join root)
             (filter (λ file, endswith_str file ".js" = true) files)) walk2.
Proof.
  induction 1 as [|x l1 l2 _ IH|x y l|l1 l2 l3 _ IH1 _ IH2]; simpl.
  - done.
  - by rewrite IH.
  - rewrite !app_assoc. f_equiv. apply Permutation_app_comm.
  - by rewrite IH1.
Qed.

Lemma js_files_files_perm (walk1 walk2 : list walk_item) :
  Forall2 (λ '(root1, _, files1) '(root2, _, files2),
             root1 = root2 ∧ files1 ≡ₚ files2) walk1 walk2 →
  flat_map
    (λ '(root, _, files),
      map (os_path_join root)
          (filter (λ file, endswith_str file ".js" = true) files)) walk1
  ≡ₚ flat_map
       (λ '(root, _, files),
         map (os_path_join root)
             (filter (λ file, endswith_str file ".js" = true) files)) walk2.
Proof.
  induction 1 as [|[[r1 d1] f1] [[r2 d2] f2] l1 l2 [-> Hf] _ IH]; simpl; [done|].
  by rewrite IH, Hf.
Qed.


End FindFacts.

Section FindTheorems.

(** X15.  [find_js_files] returns the paths in ascending order; a path is
    returned exactly when it is the join of a directory the walk yields
    with one of its file names that ends in [.js], as many times as the
    walk lists it; and every path returned ends in [.js]. *)
Theorem find_js_files_sorted_js (walk : list walk_item) :
  StronglySorted str_le_prop (find_js_files walk)
  ∧ find_js_files walk
    ≡ₚ flat_map
         (λ '(root, _, files),
           map (os_path_join root)
               (filter (λ file, endswith_str file ".js" = true) files))
         walk
  ∧ (∀ path,
        path ∈ find_js_files walk
        ↔ ∃ root subdirs files file,
            (root, subdirs, files) ∈ walk ∧ file ∈ files
            ∧ endswith_str file ".js" = true ∧ path = os_path_join root file)
  ∧ Forall (λ path, endswith_str path ".js" = true) (find_js_files walk).
Proof.
  unfold find_js_files, sorted.
  split; [apply StronglySorted_merge_sort; apply _|].
  split; [apply merge_sort_Permutation|].
  assert (∀ path,
            path ∈ merge_sort str_le_prop
                     (flat_map
                        (λ '(root, _, files),
                          map (os_path_join root)
                              (filter (λ file, endswith_str file ".js" = true) files))
                        walk)
            ↔ ∃ root subdirs files file,
                (root, subdirs, files) ∈ walk ∧ file ∈ files
                ∧ endswith_str file ".js" = true ∧ path = os_path_join root file)
    as Hmem.
  { intros path. rewrite merge_sort_Permutation. apply elem_of_js_files. }
  split; [exact Hmem|].
  apply Forall_forall. intros path (root & subdirs & files & file & _ & _ & Hjs & ->)%Hmem.
  by apply os_path_join_endswith.
Qed.

(** X16.  The result does not depend on the order in which the walk
    yields the directories, nor on the order in which it lists the file
    names of a directory. *)
Theorem find_js_files_order_independent (walk1 walk' walk2 : list walk_item) :
  walk1 ≡ₚ walk' →
  Forall2 (λ '(root1, _, files1) '(root2, _, files2),
             root1 = root2 ∧ files1 ≡ₚ files2) walk' walk2 →
  find_js_files walk1 = find_js_files walk2.
Proof.
  intros Hperm Hfiles. unfold find_js_files, sorted.
  apply (StronglySorted_unique str_le_prop);
    try (apply StronglySorted_merge_sort; apply _).
  rewrite !merge_sort_Permutation.
  etrans; [by apply js_files_walk_perm|by apply js_files_files_perm].
Qed.

Lemma find_js_files_order_independent_witness :
  [("out", ["b"; "a"], ["z.js"; "y.js"]); ("out/b", [], ["m.js"; "r.txt"]);
   ("out/a", [], ["k.js"])]
  ≡ₚ [("out", ["b"; "a"], ["z.js"; "y.js"]); ("out/a", [], ["k.js"]);
      ("out/b", [], ["m.js"; "r.txt"])]
  ∧ find_js_files
      [("out", ["b"; "a"], ["z.js"; "y.js"]); ("out/b", [], ["m.js"; "r.txt"]);
       ("out/a", [], ["k.js"])]
    = find_js_files
        [("out", ["a"; "b"], ["y.js"; "z.js"]); ("out/a", [], ["k.js"]);
         ("out/b", [], ["r.txt"; "m.js"])].
Proof.
  assert ([("out", ["b"; "a"], ["z.js"; "y.js"]); ("out/b", [], ["m.js"; "r.txt"]);
           ("out/a", [], ["k.js"])]
          ≡ₚ [("out", ["b"; "a"], ["z.js"; "y.js"]); ("out/a", [], ["k.js"]);
              ("out/b", [], ["m.js"; "r.txt"])]) as Hperm.
  { apply perm_skip, perm_swap. }
  split; [exact Hperm|].
  apply (find_js_files_order_independent _ _ _ Hperm).
  repeat constructor; apply perm_swap.
Defined.

End FindTheorems.

(** ** [read_file], [write_output_file] and [main] *)

(** What [open(filepath, 'r', encoding=e)] followed by [f.read()] does:
    it returns the decoded text, raises [UnicodeDecodeError] or
    [UnicodeError], or raises another exception. *)
Inductive read_attempt : Type :=
| Decoded (text : string)
| UnicodeError
| OtherException.

Definition encodings : list string := ["utf-8"; "utf-16"; "latin-1"; "cp1252"].

(** The [for encoding in encodings] loop of [read_file]; the messages it
    prints are left out. *)
Fixpoint try_encodings (attempt : string → read_attempt) (encs : list string)
  : option string :=
  match encs with
  | [] => None
  | encoding :: rest =>
      match attempt encoding with
      | Decoded text => Some text
      | UnicodeError => try_encodings attempt rest
      | OtherException => None
      end
  end.

Definition read_file (open_read : string → string → read_attempt)
    (filepath : string) : option string :=
  try_encodings (open_read filepath) encodings.

(** ['=' * 80] *)
Definition rule : string := Nat.iter 80 (String "=") "".

(** The text [write_output_file] writes, the writes taken to succeed. *)
Definition write_output_file (results : list (string * list string)) : string :=
  foldr
    (λ '(js_file, paths) text,
      nl +:+ rule +:+ nl
      +:+ "File: " +:+ js_file +:+ nl
      +:+ rule +:+ nl
      +:+ foldr (λ path lines, path +:+ nl +:+ lines) "" paths
      +:+ text)
    "" results.

(** [results[js_file] = paths] on a dictionary kept as its items in
    insertion order: a key that is there keeps its place. *)
Fixpoint dict_set (results : list (string * list string))
    (js_file : string) (paths : list string) : list (string * list string) :=
  match results with
  | [] => [(js_file, paths)]
  | (k, v) :: rest =>
      if String.eqb k js_file then (k, paths) :: rest
      else (k, v) :: dict_set rest js_file paths
  end.

(** The command line, as [main] reads it. *)
Record arguments : Type := {
  arg_input : string;
  arg_output : option string;
  arg_regex : option string;
  arg_rebuild_only : bool
}.

(** The file system, as [main] and the functions it calls read it. *)
Record environment : Type := {
  os_path_exists : string → bool;
  os_path_isdir : string → bool;
  os_walk : string → list walk_item;
  open_read : string → string → read_attempt
}.

(** How a run of [main] ends: [sys.exit(code)], an exception nothing
    catches, or the end of [main] with the lines of [new_path_rebuild] and
    the text of the output file when one is written.  What is printed is
    left out, and the writes are taken to succeed. *)
Inductive run_end : Type :=
| SystemExit (code : Z)
| Uncaught (e : exn)
| Finished (new_path_rebuild : list string) (output_file : option string).

Section Main.

Context `{L : Libraries}.

(** The [for js_file in js_files] loop of [main], on [results]; the
    counter [total_paths], which is only printed, is left out with the
    printing. *)
Fixpoint process_files (env : environment) (regex : option string)
    (js_files : list string) (results : list (string * list string))
  : result (list (string * list string)) :=
  match js_files with
  | [] => Ok results
  | js_file :: rest =>
      match read_file (open_read env) js_file with
      | None => process_files env regex rest results
      | Some content =>
          paths ← extract_paths content regex;
          match paths with
          | [] => process_files env regex rest results
          | _ => process_files env regex rest (dict_set results js_file paths)
          end
      end
  end.

Definition main (env : environment) (args : arguments) : run_end :=
  if negb (os_path_exists env (arg_input args)) then SystemExit 1
  else if negb (os_path_isdir env (arg_input args)) then SystemExit 1
  else
    let js_files := find_js_files (os_walk env (arg_input args)) in
    match js_files with
    | [] => SystemExit 0
    | _ =>
        match process_files env (arg_regex args) js_files [] with
        | Raise e => Uncaught e
        | Ok [] => SystemExit 0
        | Ok results =>
            Finished
              (write_path_rebuild_file results)
              (if truthy (arg_output args) && negb (arg_rebuild_only args)
               then Some (write_output_file results)
               else None)
        end
    end.

End Main.

(** The number of occurrences of a character. *)
Fixpoint count_char (c : ascii) (s : string) : nat :=
  match s with
  | EmptyString => 0
  | String a s' => (if Ascii.eqb a c then 1 else 0) + count_char c s'
  end.


Section ReadWriteFacts.

Lemma count_char_app c s t :
  count_char c (s +:+ t) = (count_char c s + count_char c t)%nat.
Proof.
  induction s as [|a s IH]; [done|]. rewrite append_cons. simpl. rewrite IH. lia.
Qed.

Lemma count_char_absent c s : Py.contains s c = false → count_char c s = 0%nat.
Proof.
  induction s as [|a s IH]; [done|]. simpl.
  intros [-> Hs]%orb_false_iff. by rewrite IH.
Qed.

Lemma count_path_lines paths :
  Forall (λ path, Py.contains path Re.newline = false) paths →
  count_char Re.newline (foldr (λ path lines, path +:+ nl +:+ lines) "" paths)
  = length paths.
Proof.
  induction 1 as [|path paths Hp _ IH]; [done|]. simpl.
  rewrite !count_char_app, IH, (count_char_absent _ _ Hp). done.
Qed.

End ReadWriteFacts.

Section ReadWriteTheorems.

(** X17.  When reading as [latin-1] raises no decoding error (it decodes
    every byte), [read_file] never reaches [cp1252]: its result is that of
    the first three encodings, and it is [None] only when one of these
    three reads raises an exception that is not a decoding error. *)
Theorem read_file_never_reaches_cp1252 open_read filepath :
  open_read filepath "latin-1" ≠ UnicodeError →
  read_file open_read filepath
  = try_encodings (open_read filepath) ["utf-8"; "utf-16"; "latin-1"]
  ∧ (read_file open_read filepath = None →
     ∃ encoding, encoding ∈ ["utf-8"; "utf-16"; "latin-1"]
                 ∧ open_read filepath encoding = OtherException).
Proof.
  intros Hlatin. unfold read_file, encodings. simpl.
  destruct (open_read filepath "utf-8") eqn:H8; [by split| |].
  - destruct (open_read filepath "utf-16") eqn:H16; [by split| |].
    + destruct (open_read filepath "latin-1") eqn:H1; [by split|done|].
      split; [done|]. intros _. exists "latin-1". split; [|done].
      do 2 (apply elem_of_cons; right). apply elem_of_cons. by left.
    + split; [done|]. intros _. exists "utf-16". split; [|done].
      apply elem_of_cons; right. apply elem_of_cons. by left.
  - split; [done|]. intros _. exists "utf-8". split; [|done].
    apply elem_of_cons. by left.
Qed.

Lemma read_file_never_reaches_cp1252_witness :
  (λ (_ encoding : string),
     if String.eqb encoding "latin-1" then Decoded "var a;" else UnicodeError)
    "a.js" "latin-1" ≠ UnicodeError
  ∧ read_file
      (λ (_ encoding : string),
         if String.eqb encoding "latin-1" then Decoded "var a;" else UnicodeError)
      "a.js"
    = Some "var a;".
Proof.
  split; [done|].
  apply (read_file_never_reaches_cp1252
           (λ (_ encoding : string),
              if String.eqb encoding "latin-1" then Decoded "var a;"
              else UnicodeError) "a.js"). done.
Defined.

(** X18.  When no file name and no candidate contains a newline, the text
    [write_output_file] writes has, for each file, four lines of heading
    and one line per candidate. *)
Theorem write_output_file_lines results :
  Forall (λ '(js_file, paths),
            Py.contains js_file Re.newline = false
            ∧ Forall (λ path, Py.contains path Re.newline = false) paths)
         results →
  count_char Re.newline (write_output_file results)
  = foldr (λ '(_, paths) n, (4 + length paths + n)%nat) 0%nat results.
Proof.
  induction 1 as [|[js_file paths] results [Hf Hp] _ IH]; [done|].
  unfold write_output_file in *. simpl foldr at 1 3.
  rewrite !count_char_app, IH, (count_path_lines _ Hp), (count_char_absent _ _ Hf).
  replace (count_char Re.newline nl) with 1%nat by done.
  replace (count_char Re.newline rule) with 0%nat by done.
  replace (count_char Re.newline "File: ") with 0%nat by done.
  simpl. lia.
Qed.

Lemma write_output_file_lines_witness :
  Forall (λ '(js_file, paths),
            Py.contains js_file Re.newline = false
            ∧ Forall (λ path, Py.contains path Re.newline = false) paths)
         [("out/a.com/x.js", ["/api"; "./y.js"])]
  ∧ count_char Re.newline (write_output_file [("out/a.com/x.js", ["/api"; "./y.js"])])
    = 6%nat.
Proof.
  assert (Forall (λ '(js_file, paths),
                    Py.contains js_file Re.newline = false
                    ∧ Forall (λ path, Py.contains path Re.newline = false) paths)
                 [("out/a.com/x.js", ["/api"; "./y.js"])]) as H.
  { repeat constructor. }
  split; [exact H|].
  apply (write_output_file_lines [("out/a.com/x.js", ["/api"; "./y.js"])] H).
Defined.

End ReadWriteTheorems.

Section MainFacts.

Context `{L : Libraries}.





(** With a custom pattern that does not compile, the loop raises at the
    first file that can be read. *)
Lemma process_files_bad_pattern env custom js_files acc :
  custom ≠ "" → re_compile_verbose custom = None →
  process_files env (Some custom) js_files acc
  = if existsb (λ js_file, bool_decide (is_Some (read_file (open_read env) js_file)))
               js_files
    then Raise re_error else Ok acc.
Proof.
  intros Hne Hre. induction js_files as [|js_file rest IH]; simpl; [done|].
  destruct (read_file (open_read env) js_file) as [content|] eqn:Hread.
  - rewrite bool_decide_eq_true_2 by eauto. simpl.
    unfold extract_paths, chosen_regex.
    destruct custom as [|a custom]; [done|]. simpl. by rewrite Hre.
  - rewrite bool_decide_eq_false_2 by (by intros [? ?]). simpl. apply IH.
Qed.

End MainFacts.

Section MainTheorems.

Context `{L : Libraries}.


(** X20.  With a custom pattern that does not compile, [main] ends with
    the uncaught [re.error] and writes nothing when the directory has a
    [.js] file that can be read; when it has none, the pattern is never
    compiled and [main] exits with code 0. *)
Theorem main_bad_pattern env args custom :
  os_path_exists env (arg_input args) = true →
  os_path_isdir env (arg_input args) = true →
  arg_regex args = Some custom → custom ≠ "" →
  re_compile_verbose custom = None →
  main env args
  = if existsb (λ js_file, bool_decide (is_Some (read_file (open_read env) js_file)))
               (find_js_files (os_walk env (arg_input args)))
    then Uncaught re_error else SystemExit 0.
Proof.
  intros Hex Hdir Hregex Hne Hre. unfold main. rewrite Hex, Hdir, Hregex. simpl.
  rewrite (process_files_bad_pattern _ _ _ _ Hne Hre).
  destruct (find_js_files _) as [|js_file rest]; [done|].
  by destruct (existsb _ _).
Qed.


End MainTheorems.

(** ** A run of [main], for examples *)

(** An instance of the library interface for patterns that are one group
    around a literal text of letters, digits, slashes and escaped dots,
    such as [(\./abc)]: [re.compile] accepts them, and [finditer] finds
    the occurrences of the text, each with the text as group 1; an
    unclosed [(] is an error.  Every other pattern is outside this
    instance and is refused by it.  The beautifier is taken to raise, so
    that [extract_paths] searches the text as it is. *)
Module SlashRe.

Fixpoint literal (body : string) : option string :=
  match body with
  | EmptyString => Some EmptyString
  | String "\" (String "." rest) => String "." <$> literal rest
  | String c rest =>
      if Re.letter c || Re.digit c || Ascii.eqb c "/"
      then String c <$> literal rest
      else None
  end.

Definition compile (p : string) : option string :=
  match p with
  | String "(" rest =>
      if Py.endswith rest ")" then
        match literal (Re.chop rest) with
        | Some (String a w) => Some (String a w)
        | _ => None
        end
      else None
  | _ => None
  end.

Definition find (w s : string) : list match_object :=
  replicate (LiteralRe.occurrences w s 0) {| groups := [Some w] |}.

Definition lib : Libraries := {|
  pattern := string;
  re_compile_verbose := compile;
  finditer := find;
  beautify := λ _, None
|}.

End SlashRe.

(** A directory [out] with the files [out/a.com/app/x.js], whose text is
    [./abc], and [out/a.com/app/notes.txt]. *)
Definition example_env : environment := {|
  os_path_exists := λ path, String.eqb path "out";
  os_path_isdir := λ path, String.eqb path "out";
  os_walk := λ _, [ ("out", ["a.com"], []);
                    ("out/a.com", ["app"], []);
                    ("out/a.com/app", [], ["x.js"; "notes.txt"]) ];
  open_read := λ _ encoding,
    if String.eqb encoding "utf-8" then Decoded "./abc" else UnicodeError
|}.

Definition example_args (regex : string) : arguments := {|
  arg_input := "out";
  arg_output := Some "paths.txt";
  arg_regex := Some regex;
  arg_rebuild_only := false
|}.

Section MainExamples.


Lemma main_bad_pattern_witness :
  os_path_exists example_env (arg_input (example_args "(")) = true
  ∧ @re_compile_verbose SlashRe.lib "(" = None
  ∧ @main SlashRe.lib example_env (example_args "(") = Uncaught re_error.
Proof.
  split; [reflexivity|]. split; [reflexivity|].
  apply (@main_bad_pattern SlashRe.lib example_env (example_args "(") "(");
    done.
Defined.


End MainExamples.

(** ** Two behaviours of the filter and of the cleaning worth knowing *)

Section Quirks.

Lemma star_class (p : ascii → bool) s :
  LiteralRe.all_chars p s = true → star (denotes (Re.Class p)) s.
Proof.
  induction s as [|a s IH]; [constructor|]. simpl.
  intros [Ha Hs]%andb_true_iff.
  change (String a s) with (String a "" +:+ s). constructor; [|auto].
  simpl. eauto.
Qed.

Lemma plus_class (p : ascii → bool) s :
  s ≠ "" → LiteralRe.all_chars p s = true → denotes (Re.Plus (Re.Class p)) s.
Proof.
  destruct s as [|a s]; [done|]. intros _. simpl LiteralRe.all_chars.
  intros [Ha Hs]%andb_true_iff.
  exists (String a ""), s. split; [done|]. split; [simpl; eauto|].
  by apply star_class.
Qed.

(** X22.  A text made of letters, a slash, and letters, digits, [-], [+]
    or [.] has the shape of a MIME type: a two-part path such as
    [api/users] or [js/app.js] is rejected and never among the filtered
    candidates. *)
Theorem two_part_paths_rejected s t raw :
  s ≠ "" → t ≠ "" →
  LiteralRe.all_chars Re.letter s = true →
  LiteralRe.all_chars (λ c, Re.letter c || Re.digit c || Re.one_of "-+." c) t = true →
  is_mime_type (s +:+ "/" +:+ t) = true
  ∧ rejected (s +:+ "/" +:+ t) = true
  ∧ s +:+ "/" +:+ t ∉ candidate_filter raw.
Proof.
  intros Hs Ht Hsl Htl.
  assert (is_mime_type (s +:+ "/" +:+ t) = true) as Hmime.
  { unfold is_mime_type, Re.match_anchored. apply orb_true_iff. left.
    apply fullmatch_denotes. exists s, ("/" +:+ t).
    split; [done|]. split; [by apply plus_class|].
    exists "/", t. split; [done|]. split; [|by apply plus_class].
    exists "/"%char. by split. }
  assert (rejected (s +:+ "/" +:+ t) = true) as Hrej.
  { unfold rejected. rewrite Hmime. by rewrite orb_true_r. }
  split; [done|]. split; [done|].
  rewrite elem_of_candidate_filter. intros [_ H]. congruence.
Qed.

Lemma two_part_paths_rejected_witness :
  "api" ≠ "" ∧ "users" ≠ ""
  ∧ is_mime_type "api/users" = true
  ∧ "api/users" ∉ candidate_filter ["/api/v1"; "api/users"].
Proof.
  split; [done|]. split; [done|].
  destruct (two_part_paths_rejected "api" "users" ["/api/v1"; "api/users"])
    as (Hmime & _ & Hout); done.
Defined.

(** X23.  The leading dots are cut twice, once by
    [write_path_rebuild_file] and once by [rebuild_paths]: of a candidate
    [../../rest] the first [../] is removed and the second becomes [./],
    so each URL written is a visited directory followed by [./rest]; the
    second step up is not taken. *)
Theorem second_dotdot_not_resolved base_url js_dir_url rest :
  Py.contains rest " " = false →
  clean_relative (strip_relative_prefix ("../../" +:+ rest)) = "./" +:+ rest
  ∧ rebuild_entry base_url js_dir_url ("../../" +:+ rest)
    = map (λ dir, full_url dir ("./" +:+ rest)) (levels base_url js_dir_url).
Proof.
  intros Hrest.
  assert (clean_relative (strip_relative_prefix ("../../" +:+ rest))
          = "./" +:+ rest) as Hclean.
  { unfold strip_relative_prefix. rewrite replace_absent.
    - reflexivity.
    - rewrite contains_app. by rewrite Hrest. }
  split; [done|].
  unfold rebuild_entry. change (Py.startswith ("../../" +:+ rest) ".") with true.
  cbv iota. by rewrite rebuild_paths_levels, Hclean.
Qed.

Lemma second_dotdot_not_resolved_witness :
  Py.contains "lib/a.js" " " = false
  ∧ rebuild_entry "https://a.com/" "https://a.com/x/y/z/" "../../lib/a.js"
    = [ "https://a.com/x/y/z/./lib/a.js";
        "https://a.com/x/y/./lib/a.js";
        "https://a.com/x/./lib/a.js";
        "https://a.com/./lib/a.js" ].
Proof.
  split; [reflexivity|].
  destruct (second_dotdot_not_resolved "https://a.com/" "https://a.com/x/y/z/"
              "lib/a.js" eq_refl) as [_ H].
  change ("../../" +:+ "lib/a.js") with "../../lib/a.js" in H. rewrite H.
  by vm_compute.
Defined.

End Quirks.

Section MoreExamples.

Example sorted_by_code_point :
  sorted ["out/z.js"; "out/a/k.js"; "out/b/m.js"; "out"; "ou"; "outA"; "out."]
  = ["ou"; "out"; "out."; "out/a/k.js"; "out/b/m.js"; "out/z.js"; "outA"].
Proof. by vm_compute. Qed.

Example os_path_join_cases :
  os_path_join "" "x.js" = "x.js"
  ∧ os_path_join "a/" "x.js" = "a/x.js"
  ∧ os_path_join "a" "x.js" = "a/x.js"
  ∧ os_path_join "a" "/x.js" = "/x.js".
Proof. by vm_compute. Qed.

Example report_text :
  write_output_file [("a.js", ["/x"])]
  = nl +:+ rule +:+ nl +:+ "File: a.js" +:+ nl +:+ rule +:+ nl +:+ "/x" +:+ nl.
Proof. by vm_compute. Qed.

End MoreExamples.
